(** * NextSample: server actions and the diagnostic route

    A shallow embedding of [app/lib/actions.ts] (customer and invoice
    mutations, authentication) and of [app/verify-data/route.ts], with the
    parts of the platform they rely on: ECMAScript numbers, strings and
    dates, the [FormData] lookup, and the fragment of zod the two schemas
    use.

    Conventions.
    - A JavaScript string is a [string]; each character stands for one
      code unit in the range U+0000..U+00FF.
    - A JavaScript number is a binary64 value, a [spec_float] at precision
      53 and maximal exponent 1024; arithmetic is the IEEE 754 arithmetic
      of [SpecFloat], rounding to nearest, ties to even.
    - Calls of the outside world (the SQL capability, the cache, the
      navigation, the authentication provider, the console) are recorded
      as events in a trace; what the outside world answers is read from a
      [World]. *)

From Stdlib Require Import ZArith List String Ascii Bool Lia.
From Stdlib Require Import Floats.SpecFloat.
Import ListNotations.
Local Open Scope string_scope.
Local Open Scope Z_scope.

(** ** ECMAScript values *)

Module JS.

(** *** Numbers *)

Definition number := spec_float.

Definition prec : Z := 53.
Definition emax : Z := 1024.

Definition NaN : number := S754_nan.
Definition Infinity : number := S754_infinity false.
Definition pos_zero : number := S754_zero false.

Definition mul (x y : number) : number := SFmul prec emax x y.

(** [x > y]; false as soon as one side is NaN. *)
Definition gtb (x y : number) : bool := SFltb y x.
Definition leb (x y : number) : bool := SFleb x y.

Definition isNaN (x : number) : bool :=
  match x with S754_nan => true | _ => false end.

(** The number nearest to the integer [z]. *)
Definition of_Z (z : Z) : number := binary_normalize prec emax z 0 false.

(** The number nearest to [m * 10^e], for a mantissa [m >= 0] written in
    decimal; [neg] is the sign of the literal.  Non-negative exponents
    round the integer [m * 10^e]; negative ones round the quotient
    [m / 10^(-e)], whose remainder decides the rounding direction. *)
Definition of_decimal (neg : bool) (m : Z) (e : Z) : number :=
  match m with
  | Z0 => S754_zero neg
  | Zpos p =>
      if 0 <=? e
      then binary_normalize prec emax (Z.mul (if neg then Zneg p else Zpos p) (10 ^ e)) 0 neg
      else
        let '(q, e', l) := SFdiv_core_binary prec emax (Zpos p) 0 (10 ^ (- e)) 0 in
        binary_round_aux prec emax neg q e' l
  | Zneg _ => NaN
  end.

(** *** Characters *)

Definition code (c : ascii) : Z := Z.of_nat (nat_of_ascii c).

(** WhiteSpace and LineTerminator code units below U+0100: TAB, LF, VT,
    FF, CR, SP and NBSP.  This is the class [\s] of a regular expression
    and the set that StringToNumber trims. *)
Definition is_space (c : ascii) : bool :=
  let n := code c in
  ((9 <=? n) && (n <=? 13)) || (n =? 32) || (n =? 160).

(** The code units that [.] does not match: LF and CR. *)
Definition is_line_terminator (c : ascii) : bool :=
  let n := code c in (n =? 10) || (n =? 13).

Definition is_digit (c : ascii) : bool :=
  let n := code c in (48 <=? n) && (n <=? 57).

Definition is_letter (c : ascii) : bool :=
  let n := code c in
  ((65 <=? n) && (n <=? 90)) || ((97 <=? n) && (n <=? 122)).

Definition to_lower (c : ascii) : ascii :=
  let n := code c in
  if (65 <=? n) && (n <=? 90) then ascii_of_nat (Z.to_nat (n + 32)) else c.

(** Value of a digit in base 16 (and so in bases 2, 8 and 10). *)
Definition digit_value (c : ascii) : option Z :=
  let n := code c in
  if (48 <=? n) && (n <=? 57) then Some (n - 48)
  else if (97 <=? n) && (n <=? 102) then Some (n - 87)
  else if (65 <=? n) && (n <=? 70) then Some (n - 55)
  else None.

Definition chars (s : string) : list ascii := list_ascii_of_string s.
Definition str (l : list ascii) : string := string_of_list_ascii l.

(** *** StringToNumber *)

Fixpoint span (p : ascii -> bool) (l : list ascii) : list ascii * list ascii :=
  match l with
  | [] => ([], [])
  | c :: r => if p c then let '(a, b) := span p r in (c :: a, b) else ([], l)
  end.

Fixpoint drop_spaces (l : list ascii) : list ascii :=
  match l with
  | c :: r => if is_space c then drop_spaces r else l
  | [] => []
  end.

Definition trim (l : list ascii) : list ascii :=
  rev (drop_spaces (rev (drop_spaces l))).

(** The integer written by [l] in [base]; [None] when [l] is empty or
    holds a character that is not a digit of that base. *)
Fixpoint digits_from (base acc : Z) (l : list ascii) : option Z :=
  match l with
  | [] => Some acc
  | c :: r =>
      match digit_value c with
      | Some d => if d <? base then digits_from base (acc * base + d) r else None
      | None => None
      end
  end.

Definition integer_in (base : Z) (l : list ascii) : option Z :=
  match l with
  | [] => None
  | _ => digits_from base 0 l
  end.

(** ExponentPart, or nothing: the exponent it denotes. *)
Definition exponent_part (l : list ascii) : option Z :=
  match l with
  | [] => Some 0
  | c :: r =>
      if (code c =? 101) || (code c =? 69) then
        match r with
        | "+"%char :: ds => integer_in 10 ds
        | "-"%char :: ds => option_map Z.opp (integer_in 10 ds)
        | ds => integer_in 10 ds
        end
      else None
  end.

(** StrUnsignedDecimalLiteral other than [Infinity]. *)
Definition unsigned_decimal (neg : bool) (l : list ascii) : number :=
  let '(ip, r1) := span is_digit l in
  let '(fp, r2) :=
    match r1 with
    | "."%char :: r => span is_digit r
    | _ => ([], r1)
    end in
  match (ip ++ fp)%list with
  | [] => NaN
  | ds =>
      match digits_from 10 0 ds, exponent_part r2 with
      | Some m, Some e => of_decimal neg m (e - Z.of_nat (List.length fp))
      | _, _ => NaN
      end
  end.

Definition str_decimal (neg : bool) (l : list ascii) : number :=
  if String.eqb (str l) "Infinity" then S754_infinity neg
  else unsigned_decimal neg l.

Definition non_decimal (base : Z) (ds : list ascii) : number :=
  match integer_in base ds with
  | Some m => of_Z m
  | None => NaN
  end.

Definition StringToNumber (s : string) : number :=
  match trim (chars s) with
  | [] => pos_zero
  | "+"%char :: r => str_decimal false r
  | "-"%char :: r => str_decimal true r
  | "0"%char :: "x"%char :: ds | "0"%char :: "X"%char :: ds => non_decimal 16 ds
  | "0"%char :: "o"%char :: ds | "0"%char :: "O"%char :: ds => non_decimal 8 ds
  | "0"%char :: "b"%char :: ds | "0"%char :: "B"%char :: ds => non_decimal 2 ds
  | l => str_decimal false l
  end.

(** *** Values that reach the validators *)

Inductive value :=
| VUndefined
| VNull
| VString (s : string)
| VFile (name : string).

(** [Number(v)]: a File is an object whose primitive is the string
    ["[object File]"], which is no numeric literal. *)
Definition ToNumber (v : value) : number :=
  match v with
  | VUndefined => NaN
  | VNull => pos_zero
  | VString s => StringToNumber s
  | VFile _ => NaN
  end.

(** *** FormData *)

Inductive FormDataEntryValue :=
| EntryString (s : string)
| EntryFile (name : string).

Definition FormData := list (string * FormDataEntryValue).

(** [formData.get(name)]: the first entry of that name, [null] when
    there is none. *)
Fixpoint get (fd : FormData) (name : string) : value :=
  match fd with
  | [] => VNull
  | (k, v) :: rest =>
      if String.eqb k name
      then match v with EntryString s => VString s | EntryFile f => VFile f end
      else get rest name
  end.

(** *** [String.prototype.split] with a one-character separator *)

Fixpoint split (sep : ascii) (s : string) : list string :=
  match s with
  | EmptyString => [EmptyString]
  | String c r =>
      if Ascii.eqb c sep then EmptyString :: split sep r
      else match split sep r with
           | h :: t => String c h :: t
           | [] => [String c EmptyString]
           end
  end.

(** *** Dates: time values are milliseconds since the epoch, UTC *)

Definition msPerDay : Z := 86400000.

Definition Day (t : Z) : Z := t / msPerDay.
Definition TimeWithinDay (t : Z) : Z := t mod msPerDay.

Definition DayFromYear (y : Z) : Z :=
  365 * (y - 1970) + (y - 1969) / 4 - (y - 1901) / 100 + (y - 1601) / 400.

Definition DaysInYear (y : Z) : Z :=
  if negb (y mod 4 =? 0) then 365
  else if negb (y mod 100 =? 0) then 366
  else if negb (y mod 400 =? 0) then 365
  else 366.

(** The largest [y] with [DayFromYear y <= Day t]: the mean length of a
    year gives an estimate that is off by one at most. *)
Definition YearFromTime (t : Z) : Z :=
  let d := Day t in
  let y := 1970 + (d * 400) / 146097 in
  if d <? DayFromYear y then y - 1
  else if DayFromYear (y + 1) <=? d then y + 1
  else y.

Definition InLeapYear (t : Z) : Z :=
  if DaysInYear (YearFromTime t) =? 366 then 1 else 0.

Definition DayWithinYear (t : Z) : Z := Day t - DayFromYear (YearFromTime t).

(** Months are numbered from 0. *)
Definition MonthFromTime (t : Z) : Z :=
  let d := DayWithinYear t in
  let l := InLeapYear t in
  if d <? 31 then 0
  else if d <? 59 + l then 1
  else if d <? 90 + l then 2
  else if d <? 120 + l then 3
  else if d <? 151 + l then 4
  else if d <? 181 + l then 5
  else if d <? 212 + l then 6
  else if d <? 243 + l then 7
  else if d <? 273 + l then 8
  else if d <? 304 + l then 9
  else if d <? 334 + l then 10
  else 11.

Definition DateFromTime (t : Z) : Z :=
  let d := DayWithinYear t in
  let l := InLeapYear t in
  match MonthFromTime t with
  | 0 => d + 1
  | 1 => d - 30
  | 2 => d - 58 - l
  | 3 => d - 89 - l
  | 4 => d - 119 - l
  | 5 => d - 150 - l
  | 6 => d - 180 - l
  | 7 => d - 211 - l
  | 8 => d - 242 - l
  | 9 => d - 272 - l
  | 10 => d - 303 - l
  | _ => d - 333 - l
  end.

Definition HourFromTime (t : Z) : Z := (t / 3600000) mod 24.
Definition MinFromTime (t : Z) : Z := (t / 60000) mod 60.
Definition SecFromTime (t : Z) : Z := (t / 1000) mod 60.
Definition msFromTime (t : Z) : Z := t mod 1000.

Definition digit_char (d : Z) : ascii := ascii_of_nat (Z.to_nat (48 + d mod 10)).

(** [z >= 0] in decimal, on [n] digits, zeros in front. *)
Fixpoint padded (n : nat) (z : Z) : string :=
  match n with
  | O => EmptyString
  | S k => padded k (z / 10) ++ String (digit_char z) EmptyString
  end.

(** Years 0 to 9999 are written on four digits, all others with a sign
    and six digits. *)
Definition year_string (y : Z) : string :=
  if (0 <=? y) && (y <=? 9999) then padded 4 y
  else if y <? 0 then "-" ++ padded 6 (- y)
  else "+" ++ padded 6 y.

(** The calendar date of [t], as the date part of the ISO format. *)
Definition iso_date (t : Z) : string :=
  year_string (YearFromTime t) ++ "-" ++ padded 2 (MonthFromTime t + 1)
    ++ "-" ++ padded 2 (DateFromTime t).

Definition iso_time (t : Z) : string :=
  padded 2 (HourFromTime t) ++ ":" ++ padded 2 (MinFromTime t) ++ ":"
    ++ padded 2 (SecFromTime t) ++ "." ++ padded 3 (msFromTime t) ++ "Z".

(** [Date.prototype.toISOString] of a valid date. *)
Definition toISOString (t : Z) : string := iso_date t ++ "T" ++ iso_time t.

End JS.


(** ** The fragment of zod used by the schemas

    The schemas are written against zod 3 ([required_error],
    [invalid_type_error]); messages that a schema does not set are those
    of the default error map of that version. *)

Module Zod.
Import JS.

(** What a schema answers: a value, a value with complaints (a failed
    check, after which later checks still run), or complaints alone (a
    wrong type, after which nothing else runs). *)
Inductive ParseReturn (T : Type) :=
| Valid (v : T)
| Dirty (v : T) (msgs : list string)
| Aborted (msgs : list string).
Arguments Valid {T} v.
Arguments Dirty {T} v msgs.
Arguments Aborted {T} msgs.

Definition Schema (T : Type) := value -> ParseReturn T.

Definition messages {T} (r : ParseReturn T) : list string :=
  match r with
  | Valid _ => []
  | Dirty _ ms => ms
  | Aborted ms => ms
  end.

(** Options given when a schema is created. *)
Record Params := {
  required_error : option string;
  invalid_type_error : option string }.

Definition no_params : Params :=
  {| required_error := None; invalid_type_error := None |}.

Definition parsed_type (v : value) : string :=
  match v with
  | VUndefined => "undefined"
  | VNull => "null"
  | VString _ => "string"
  | VFile _ => "object"
  end.

Definition or_default (o : option string) (d : string) : string :=
  match o with Some m => m | None => d end.

(** Message of an [invalid_type] issue: the error map of the schema
    first, the default map of the library otherwise. *)
Definition type_message (p : Params) (expected received : string) (v : value) : string :=
  match v with
  | VUndefined => or_default (required_error p) "Required"
  | _ => or_default (invalid_type_error p)
           ("Expected " ++ expected ++ ", received " ++ received)
  end.

(** [z.string(params)] *)
Definition z_string (p : Params) : Schema string :=
  fun v =>
    match v with
    | VString s => Valid s
    | _ => Aborted [type_message p "string" (parsed_type v) v]
    end.

(** A check on a value that parsed: a failure is recorded and the value
    kept.  [.min], [.gt] and [.refine] all behave this way. *)
Definition check {T} (ok : T -> bool) (msg : string) (s : Schema T) : Schema T :=
  fun v =>
    match s v with
    | Valid x => if ok x then Valid x else Dirty x [msg]
    | Dirty x ms => if ok x then Dirty x ms else Dirty x (ms ++ [msg])%list
    | Aborted ms => Aborted ms
    end.

(** [.min(n, {message})] on a string: the length is at least [n]. *)
Definition min (n : nat) (msg : string) : Schema string -> Schema string :=
  check (fun s => negb (Nat.ltb (String.length s) n)) msg.

(** [.refine(test, {message})] *)
Definition refine {T} (test : T -> bool) (msg : string) : Schema T -> Schema T :=
  check test msg.

(** [.optional()]: [undefined] passes, anything else goes to the inner
    schema; [null] is not [undefined]. *)
Definition optional {T} (s : Schema T) : Schema (option T) :=
  fun v =>
    match v with
    | VUndefined => Valid None
    | _ => match s v with
           | Valid x => Valid (Some x)
           | Dirty x ms => Dirty (Some x) ms
           | Aborted ms => Aborted ms
           end
    end.

(** [z.coerce.number()]: the input goes through [Number(...)]; a NaN is
    no number for zod. *)
Definition z_coerce_number (p : Params) : Schema number :=
  fun v =>
    let n := ToNumber v in
    if isNaN n
    then Aborted [or_default (invalid_type_error p) "Expected number, received nan"]
    else Valid n.

(** [.gt(bound, {message})]: the check fails when [value <= bound]. *)
Definition gt (bound : number) (msg : string) : Schema number -> Schema number :=
  check (fun n => negb (leb n bound)) msg.

(** ['a' | 'b' | ...] *)
Fixpoint joinValues (vs : list string) : string :=
  match vs with
  | [] => EmptyString
  | [a] => "'" ++ a ++ "'"
  | a :: r => "'" ++ a ++ "' | " ++ joinValues r
  end.

(** [z.enum(values, params)] *)
Definition z_enum (values : list string) (p : Params) : Schema string :=
  fun v =>
    match v with
    | VString s =>
        if existsb (String.eqb s) values then Valid s
        else Aborted ["Invalid enum value. Expected " ++ joinValues values
                        ++ ", received '" ++ s ++ "'"]
    | _ => Aborted [type_message p (joinValues values) (parsed_type v) v]
    end.

(** *** Objects and their errors *)

Record Issue := { issue_path : string; issue_message : string }.

Inductive SafeParse (T : Type) :=
| Success (data : T)
| Failure (issues : list Issue).
Arguments Success {T} data.
Arguments Failure {T} issues.

Definition issues_at {T} (key : string) (r : ParseReturn T) : list Issue :=
  map (fun m => {| issue_path := key; issue_message := m |}) (messages r).

(** An object of three keys: every key is parsed, in the order of the
    shape, and the issues of all of them are collected. *)
Definition object3 {A B C T} (mk : A -> B -> C -> T)
    (k1 : string) (r1 : ParseReturn A)
    (k2 : string) (r2 : ParseReturn B)
    (k3 : string) (r3 : ParseReturn C) : SafeParse T :=
  match r1, r2, r3 with
  | Valid a, Valid b, Valid c => Success (mk a b c)
  | _, _, _ => Failure (issues_at k1 r1 ++ issues_at k2 r2 ++ issues_at k3 r3)%list
  end.

(** [error.flatten().fieldErrors]: for each key that has an issue, its
    messages in the order of the issues; keys in the order in which they
    first occur. *)
Definition FieldErrors := list (string * list string).

Fixpoint add_error (k msg : string) (fe : FieldErrors) : FieldErrors :=
  match fe with
  | [] => [(k, [msg])]
  | (k', ms) :: rest =>
      if String.eqb k k' then (k', ms ++ [msg])%list :: rest
      else (k', ms) :: add_error k msg rest
  end.

Definition fieldErrors (issues : list Issue) : FieldErrors :=
  fold_left (fun fe i => add_error (issue_path i) (issue_message i) fe) issues [].

(** [fieldErrors[key]]; a key without issue is absent. *)
Fixpoint field (k : string) (fe : FieldErrors) : option (list string) :=
  match fe with
  | [] => None
  | (k', ms) :: rest => if String.eqb k k' then Some ms else field k rest
  end.

End Zod.

(** ** The outside world and the effects of a handler *)

Module Effect.
Import JS.

(** Values that are thrown. *)
Inductive Exn :=
| DbError (detail : string)        (* the SQL capability rejected *)
| AuthError (type : string)        (* next-auth's AuthError; [type] is its kind *)
| NextRedirect (path : string)     (* what [redirect] throws *)
| OtherError (detail : string).

(** A value bound to a placeholder of a statement. *)
Inductive SqlParam :=
| PString (s : string)
| PNumber (n : number)
| PUndefined.

Definition param_of_string (s : string) : SqlParam := PString s.
Definition param_of_optional (o : option string) : SqlParam :=
  match o with Some s => PString s | None => PUndefined end.

(** The statements of the two files; the arguments are the bound values
    in the order of the placeholders. *)
Inductive Statement :=
| InsertIntoCustomers (customer_id name url : SqlParam)
    (* INSERT INTO customers (customer_id, name, url) VALUES ($1, $2, $3) *)
| UpdateCustomers (set_customer_id set_name set_url where_id : SqlParam)
    (* UPDATE customers SET customer_id = $1, name = $2, url = $3 WHERE id = $4 *)
| DeleteFromCustomers (where_email : SqlParam)
    (* DELETE FROM customers WHERE email = $1 *)
| InsertIntoInvoices (customer_id amount status date : SqlParam)
    (* INSERT INTO invoices (customer_id, amount, status, date) VALUES ($1, $2, $3, $4) *)
| UpdateInvoices (set_customer_id set_amount set_status where_id : SqlParam)
    (* UPDATE invoices SET customer_id = $1, amount = $2, status = $3 WHERE id = $4 *)
| DeleteFromInvoices (where_id : SqlParam)
    (* DELETE FROM invoices WHERE id = $1 *)
| Begin
| SelectRevenue                    (* SELECT * FROM revenue *)
| Commit
| Rollback.

Definition Row := string.

Inductive Event :=
| Sql (q : Statement) (answer : Exn + list Row)
| RevalidatePath (path : string)
| Redirect (path : string)
| SignIn (provider : string) (formData : FormData) (answer : option Exn)
| ConsoleLog (row : Row).

(** What the collaborators answer.  The SQL capability sees what has
    happened so far, so that it may answer two executions of one
    statement differently. *)
Record World := {
  sql_answer : list Event -> Statement -> Exn + list Row;
  signIn_answer : string -> FormData -> option Exn;
  now : Z }.

Inductive Outcome (A : Type) :=
| Returned (a : A)
| Raised (e : Exn).
Arguments Returned {A} a.
Arguments Raised {A} e.

(** An action reads the world, extends the trace, and returns or
    throws. *)
Definition Action (A : Type) := World -> list Event -> Outcome A * list Event.

Definition ret {A} (a : A) : Action A := fun _ tr => (Returned a, tr).

Definition raise {A} (e : Exn) : Action A := fun _ tr => (Raised e, tr).

Definition bind {A B} (m : Action A) (k : A -> Action B) : Action B :=
  fun w tr =>
    match m w tr with
    | (Returned a, tr') => k a w tr'
    | (Raised e, tr') => (Raised e, tr')
    end.

(** [try { body } catch (error) { handler }] *)
Definition try_catch {A} (body : Action A) (handler : Exn -> Action A) : Action A :=
  fun w tr =>
    match body w tr with
    | (Returned a, tr') => (Returned a, tr')
    | (Raised e, tr') => handler e w tr'
    end.

(** The result of a [try] block whose [catch] leaves the function: the
    code after the statement runs only on [inr]. *)
Definition attempt {A} (body : Action A) : Action (Exn + A) :=
  try_catch (bind body (fun a => ret (inr a))) (fun e => ret (inl e)).

Definition emit (ev : Event) : Action unit := fun _ tr => (Returned tt, tr ++ [ev])%list.

(** [await sql`...`] *)
Definition sql (q : Statement) : Action (list Row) :=
  fun w tr =>
    let a := sql_answer w tr q in
    (match a with inl e => Raised e | inr rows => Returned rows end,
     (tr ++ [Sql q a])%list).

Definition revalidatePath (path : string) : Action unit := emit (RevalidatePath path).

(** [redirect] never returns: it throws the navigation signal. *)
Definition redirect {A} (path : string) : Action A :=
  fun _ tr => (Raised (NextRedirect path), (tr ++ [Redirect path])%list).

(** [await signIn(provider, formData)] *)
Definition signIn (provider : string) (fd : FormData) : Action unit :=
  fun w tr =>
    let a := signIn_answer w provider fd in
    (match a with Some e => Raised e | None => Returned tt end,
     (tr ++ [SignIn provider fd a])%list).

(** [new Date()] *)
Definition new_Date : Action Z := fun w tr => (Returned (now w), tr).

Definition console_log (row : Row) : Action unit := emit (ConsoleLog row).

(** [rows.forEach(f)] *)
Fixpoint forEach {A} (f : A -> Action unit) (l : list A) : Action unit :=
  match l with
  | [] => ret tt
  | x :: r => bind (f x) (fun _ => forEach f r)
  end.

(** A call from outside starts with an empty trace. *)
Definition run {A} (m : Action A) (w : World) : Outcome A * list Event := m w [].

End Effect.

Declare Scope action_scope.
Delimit Scope action_scope with action.
Notation "x <- m ;; k" := (Effect.bind m (fun x => k))
  (at level 61, m at next level, right associativity) : action_scope.
Notation "m ;; k" := (Effect.bind m (fun _ => k))
  (at level 61, right associativity) : action_scope.

(** ** app/lib/actions.ts *)

Module Actions.
Import JS Zod Effect.
Local Open Scope action_scope.

(** [State] and [CustomerState]: both optional, [errors] keyed by field. *)
Record FormState := {
  errors : option FieldErrors;
  message : option string }.

Definition State := FormState.
Definition CustomerState := FormState.

(** *** Customers *)

(** [/^(https?):\/\/(?=.*\.[a-z]{2,})[^\s$.?#].[^\s]*$/i], read from
    left to right: the scheme, then, on what follows, the lookahead and
    the three remaining atoms. *)
Definition after_scheme (l : list ascii) : option (list ascii) :=
  match map to_lower l with
  | "h"%char :: "t"%char :: "t"%char :: "p"%char :: "s"%char
      :: ":"%char :: "/"%char :: "/"%char :: _ => Some (skipn 8 l)
  | "h"%char :: "t"%char :: "t"%char :: "p"%char
      :: ":"%char :: "/"%char :: "/"%char :: _ => Some (skipn 7 l)
  | _ => None
  end.

(** [(?=.*\.[a-z]{2,})]: after characters that are no line terminator, a
    dot and two letters. *)
Fixpoint dot_and_letters (l : list ascii) : bool :=
  match l with
  | [] => false
  | c :: r =>
      (Ascii.eqb c "." &&
         match r with
         | a :: b :: _ => is_letter a && is_letter b
         | _ => false
         end)
      || (negb (is_line_terminator c) && dot_and_letters r)
  end.

(** [[^\s$.?#].[^\s]*$] *)
Definition url_body (l : list ascii) : bool :=
  match l with
  | c1 :: c2 :: rest =>
      negb (is_space c1 || Ascii.eqb c1 "$" || Ascii.eqb c1 "."
            || Ascii.eqb c1 "?" || Ascii.eqb c1 "#")
      && negb (is_line_terminator c2)
      && forallb (fun c => negb (is_space c)) rest
  | _ => false
  end.

Definition url_test (s : string) : bool :=
  match after_scheme (chars s) with
  | Some rest => dot_and_letters rest && url_body rest
  | None => false
  end.

Record CustomerData := {
  name : string;
  email : option string;
  url : option string }.

Record InvoiceData := {
  customerId : string;
  amount : number;
  status : string }.

Section WithDefinitions.

(** [nameRegex.test], from [./definitions]. *)
Variable nameRegex : string -> bool.

(** The fields of [customerSchema]. *)
Definition customerSchema_name : Schema string :=
  refine nameRegex "Name can only have valid characters."
    (min 1 "Name must contain at least 1 character."
       (z_string {| required_error := Some "Name is a required field";
                    invalid_type_error := None |})).

Definition customerSchema_email : Schema (option string) :=
  optional (z_string {| required_error := None;
                        invalid_type_error := Some "Invalid Email" |}).

Definition customerSchema_url : Schema (option string) :=
  optional (refine url_test "Please enter a valid URL" (z_string no_params)).

Definition customerSchema (name_in email_in url_in : value) : SafeParse CustomerData :=
  object3 Build_CustomerData
    "name" (customerSchema_name name_in)
    "email" (customerSchema_email email_in)
    "url" (customerSchema_url url_in).

Definition createCustomer (prevState : CustomerState) (formData : FormData)
  : Action (option CustomerState) :=
  match customerSchema (get formData "name") (get formData "email")
                       (get formData "url") with
  | Failure issues =>
      ret (Some {| errors := Some (fieldErrors issues); message := None |})
  | Success data =>
      r <- attempt (sql (InsertIntoCustomers (param_of_optional (email data))
                                        (param_of_string (name data))
                                        (param_of_optional (url data)))) ;;
      match r with
      | inl error =>
          ret (Some {| errors := None;
                       message := Some "Database Error: Failed to Create Customer." |})
      | inr _ =>
          revalidatePath "/dashboard/customers" ;;
          redirect "/dashboard/customers"
      end
  end.

Definition updateCustomer (id : string) (prevState : CustomerState)
    (formData : FormData) : Action (option CustomerState) :=
  match customerSchema (get formData "name") (get formData "email")
                       (get formData "url") with
  | Failure issues =>
      ret (Some {| errors := Some (fieldErrors issues);
                   message := Some "Missing Fields. Failed to Update Customer." |})
  | Success data =>
      r <- attempt (sql (UpdateCustomers (param_of_optional (email data))
                                        (param_of_string (name data))
                                        (param_of_optional (url data))
                                        (param_of_optional (email data)))) ;;
      match r with
      | inl error =>
          ret (Some {| errors := None;
                       message := Some ("Database Error: Failed to update Customer "
                                        ++ name data) |})
      | inr _ =>
          revalidatePath "/dashboard/customers" ;;
          redirect "/dashboard/customers"
      end
  end.

End WithDefinitions.

Definition deleteCustomer (id : string) : Action (option CustomerState) :=
  r <- attempt (sql (DeleteFromCustomers (param_of_string id))) ;;
  match r with
  | inl error =>
      ret (Some {| errors := None; message := Some "Database Error: Failed to delete" |})
  | inr _ =>
      revalidatePath "/dashboard/customers" ;;
      ret None
  end.

(** *** Invoices *)

(** The fields of [InvoiceSchema]. *)
Definition InvoiceSchema_id : Schema string := z_string no_params.

Definition InvoiceSchema_customerId : Schema string :=
  z_string {| required_error := None;
              invalid_type_error := Some "Please select a customer." |}.

Definition InvoiceSchema_amount : Schema number :=
  gt (of_Z 0) "Please enter an amount greater than $0." (z_coerce_number no_params).

Definition InvoiceSchema_status : Schema string :=
  z_enum ["pending"; "paid"]
    {| required_error := None;
       invalid_type_error := Some "Please select an invoice status." |}.

Definition InvoiceSchema_date : Schema string := z_string no_params.

(** [InvoiceSchema.omit({ id: true, date: true })]: the three fields that
    are left, in the order of the shape. *)
Definition CreateInvoice (customerId_in amount_in status_in : value)
  : SafeParse InvoiceData :=
  object3 Build_InvoiceData
    "customerId" (InvoiceSchema_customerId customerId_in)
    "amount" (InvoiceSchema_amount amount_in)
    "status" (InvoiceSchema_status status_in).

Definition UpdateInvoice := CreateInvoice.

Definition createInvoice (prevState : State) (formData : FormData)
  : Action (option State) :=
  match CreateInvoice (get formData "customerId") (get formData "amount")
                      (get formData "status") with
  | Failure issues =>
      ret (Some {| errors := Some (fieldErrors issues);
                   message := Some "Missing Fields. Failed to Create Invoice." |})
  | Success data =>
      let amountInCents := mul (amount data) (of_Z 100) in
      t <- new_Date ;;
      let date := hd EmptyString (split "T" (toISOString t)) in
      r <- attempt (sql (InsertIntoInvoices (param_of_string (customerId data))
                                       (PNumber amountInCents)
                                       (param_of_string (status data))
                                       (param_of_string date))) ;;
      match r with
      | inl error =>
          ret (Some {| errors := None;
                       message := Some "Database Error: Failed to Create Invoice." |})
      | inr _ =>
          revalidatePath "/dashboard/invoices" ;;
          redirect "/dashboard/invoices"
      end
  end.

Definition updateInvoice (id : string) (prevState : State) (formData : FormData)
  : Action (option State) :=
  match UpdateInvoice (get formData "customerId") (get formData "amount")
                      (get formData "status") with
  | Failure issues =>
      ret (Some {| errors := Some (fieldErrors issues);
                   message := Some "Missing Fields. Failed to Update Invoice." |})
  | Success data =>
      let amountInCents := mul (amount data) (of_Z 100) in
      r <- attempt (sql (UpdateInvoices (param_of_string (customerId data))
                                       (PNumber amountInCents)
                                       (param_of_string (status data))
                                       (param_of_string id))) ;;
      match r with
      | inl error =>
          ret (Some {| errors := None;
                       message := Some ("Database Error: Failed to update " ++ id) |})
      | inr _ =>
          revalidatePath "/dashboard/invoices" ;;
          redirect "/dashboard/invoices"
      end
  end.

Definition deleteInvoice (id : string) : Action (option State) :=
  r <- attempt (sql (DeleteFromInvoices (param_of_string id))) ;;
  match r with
  | inl error =>
      ret (Some {| errors := None; message := Some "Database Error: Failed to delete" |})
  | inr _ =>
      revalidatePath "/dashboard/invoices" ;;
      ret None
  end.

(** *** Authentication *)

Definition authenticate (prevState : option string) (formData : FormData)
  : Action (option string) :=
  try_catch
    (signIn "credentials" formData ;; ret None)
    (fun error =>
       match error with
       | AuthError type =>
           if String.eqb type "CredentialsSignin"
           then ret (Some "Invalid credentials.")
           else ret (Some "Something went wrong.")
       | _ => raise error
       end).

End Actions.

(** ** app/verify-data/route.ts *)

Module Route.
Import JS Effect.
Local Open Scope action_scope.

Inductive Body :=
| BodyMessage (message : string)   (* { message } *)
| BodyError (error : Exn).         (* { error } *)

Record Response := { body : Body; status : Z }.

(** [Response.json(data, init)]; the status is 200 when [init] gives
    none. *)
Definition Response_json (data : Body) (init : option Z) : Response :=
  {| body := data; status := match init with Some s => s | None => 200 end |}.

Definition GET : Action Response :=
  try_catch
    (sql Begin ;;
     data <- sql SelectRevenue ;;
     forEach console_log data ;;
     sql Commit ;;
     ret (Response_json (BodyMessage "success") None))
    (fun error =>
       sql Rollback ;;
       ret (Response_json (BodyError error) (Some 500))).

End Route.

(** * Vocabulary of the properties *)

Import JS Zod Effect Actions.

(** ** Calls of the mutation handlers *)

Inductive Mutation :=
| CallCreateCustomer (prevState : CustomerState) (formData : FormData)
| CallUpdateCustomer (id : string) (prevState : CustomerState) (formData : FormData)
| CallDeleteCustomer (id : string)
| CallCreateInvoice (prevState : State) (formData : FormData)
| CallUpdateInvoice (id : string) (prevState : State) (formData : FormData)
| CallDeleteInvoice (id : string).

Definition handler (nameRegex : string -> bool) (m : Mutation) : Action (option FormState) :=
  match m with
  | CallCreateCustomer prev fd => createCustomer nameRegex prev fd
  | CallUpdateCustomer id prev fd => updateCustomer nameRegex id prev fd
  | CallDeleteCustomer id => deleteCustomer id
  | CallCreateInvoice prev fd => createInvoice prev fd
  | CallUpdateInvoice id prev fd => updateInvoice id prev fd
  | CallDeleteInvoice id => deleteInvoice id
  end.

(** The listing that owns the rows a handler changes. *)
Definition listing (m : Mutation) : string :=
  match m with
  | CallCreateCustomer _ _ | CallUpdateCustomer _ _ _ | CallDeleteCustomer _ =>
      "/dashboard/customers"
  | CallCreateInvoice _ _ | CallUpdateInvoice _ _ _ | CallDeleteInvoice _ =>
      "/dashboard/invoices"
  end.

Definition is_delete (m : Mutation) : bool :=
  match m with
  | CallDeleteCustomer _ | CallDeleteInvoice _ => true
  | _ => false
  end.

(** What the validation stage of a handler answers: the issues when it
    fails; the delete handlers have no such stage. *)
Definition validation (nameRegex : string -> bool) (m : Mutation) : option (list Issue) :=
  match m with
  | CallCreateCustomer _ fd | CallUpdateCustomer _ _ fd =>
      match customerSchema nameRegex (get fd "name") (get fd "email") (get fd "url") with
      | Failure issues => Some issues
      | Success _ => None
      end
  | CallCreateInvoice _ fd | CallUpdateInvoice _ _ fd =>
      match CreateInvoice (get fd "customerId") (get fd "amount") (get fd "status") with
      | Failure issues => Some issues
      | Success _ => None
      end
  | CallDeleteCustomer _ | CallDeleteInvoice _ => None
  end.

(** The one statement a handler executes once validation has passed. *)
Definition statement (nameRegex : string -> bool) (w : World) (m : Mutation) : option Statement :=
  match m with
  | CallCreateCustomer _ fd =>
      match customerSchema nameRegex (get fd "name") (get fd "email") (get fd "url") with
      | Success d => Some (InsertIntoCustomers (param_of_optional (email d))
                             (PString (name d)) (param_of_optional (url d)))
      | Failure _ => None
      end
  | CallUpdateCustomer _ _ fd =>
      match customerSchema nameRegex (get fd "name") (get fd "email") (get fd "url") with
      | Success d => Some (UpdateCustomers (param_of_optional (email d))
                             (PString (name d)) (param_of_optional (url d))
                             (param_of_optional (email d)))
      | Failure _ => None
      end
  | CallDeleteCustomer id => Some (DeleteFromCustomers (PString id))
  | CallCreateInvoice _ fd =>
      match CreateInvoice (get fd "customerId") (get fd "amount") (get fd "status") with
      | Success d => Some (InsertIntoInvoices (PString (customerId d))
                             (PNumber (mul (amount d) (of_Z 100)))
                             (PString (status d))
                             (PString (hd EmptyString (split "T" (toISOString (now w))))))
      | Failure _ => None
      end
  | CallUpdateInvoice id _ fd =>
      match CreateInvoice (get fd "customerId") (get fd "amount") (get fd "status") with
      | Success d => Some (UpdateInvoices (PString (customerId d))
                             (PNumber (mul (amount d) (of_Z 100)))
                             (PString (status d)) (PString id))
      | Failure _ => None
      end
  | CallDeleteInvoice id => Some (DeleteFromInvoices (PString id))
  end.

Definition errors_of (r : option FormState) : option FieldErrors :=
  match r with Some st => errors st | None => None end.

(** The three ways a call of a handler ends. *)
Inductive Run (nameRegex : string -> bool) (w : World) (m : Mutation)
  : Outcome (option FormState) * list Event -> Prop :=
| RunInvalid issues r :
    validation nameRegex m = Some issues ->
    errors_of r = Some (fieldErrors issues) ->
    Run nameRegex w m (Returned r, [])
| RunDbError q e msg :
    validation nameRegex m = None ->
    statement nameRegex w m = Some q ->
    sql_answer w [] q = inl e ->
    prefix "Database Error" msg = true ->
    Run nameRegex w m
      (Returned (Some {| errors := None; message := Some msg |}), [Sql q (inl e)])
| RunDone q rows :
    validation nameRegex m = None ->
    statement nameRegex w m = Some q ->
    sql_answer w [] q = inr rows ->
    Run nameRegex w m
      (if is_delete m then Returned None else Raised (NextRedirect (listing m)),
       (Sql q (inr rows) :: RevalidatePath (listing m)
          :: if is_delete m then [] else [Redirect (listing m)])).

Ltac by_parse :=
  cbn [validation statement];
  try match goal with H : _ = Success _ |- _ => rewrite H end;
  try match goal with H : _ = Failure _ |- _ => rewrite H end;
  reflexivity.

Ltac invalid_case := eapply RunInvalid; [by_parse | reflexivity].

Ltac persist_case :=
  unfold bind, attempt, try_catch, bind, sql, ret, new_Date, revalidatePath,
         redirect, emit;
  cbn [app];
  match goal with
  | |- context [sql_answer ?w' [] ?q] =>
      let e := fresh "e" in
      let rows := fresh "rows" in
      let Ha := fresh "Ha" in
      destruct (sql_answer w' [] q) as [e | rows] eqn:Ha;
      [ eapply (RunDbError _ _ _ _ e); [by_parse | by_parse | exact Ha | reflexivity]
      | refine (RunDone _ _ _ _ rows _ _ _); [by_parse | by_parse | exact Ha] ]
  end.

(** ** Traces *)

Definition persistence_failed (tr : list Event) : Prop :=
  exists q e, In (Sql q (inl e)) tr.

Definition persistence_succeeded (tr : list Event) : Prop :=
  exists q rows, In (Sql q (inr rows)) tr.

(** ** Worlds and inputs of the examples *)

(** A stand-in for [nameRegex]: letters, blanks, apostrophes and hyphens. *)
Definition example_nameRegex (s : string) : bool :=
  forallb (fun c => is_letter c || Ascii.eqb c " " || Ascii.eqb c "'" || Ascii.eqb c "-")
          (chars s).

(** Every collaborator answers; the clock shows 2025-11-03T02:40:00Z. *)
Definition healthy : World :=
  {| sql_answer := fun _ _ => inr [];
     signIn_answer := fun _ _ => None;
     now := 1762137600000 |}.

(** The store is unreachable and the provider rejects the credentials. *)
Definition unreachable : World :=
  {| sql_answer := fun _ _ => inl (DbError "connection refused");
     signIn_answer := fun _ _ => Some (AuthError "CredentialsSignin");
     now := 1762137600000 |}.

(** The store accepts BEGIN and then loses the connection. *)
Definition connection_lost : World :=
  {| sql_answer := fun _ q =>
       match q with
       | Begin => inr []
       | _ => inl (DbError "connection lost")
       end;
     signIn_answer := fun _ _ => None;
     now := 1762137600000 |}.

Definition no_state : FormState := {| errors := None; message := None |}.

Definition jane : FormData :=
  [("name", EntryString "Jane Doe");
   ("email", EntryString "jane@x.com");
   ("url", EntryString "https://x.com")].

Definition invoice_form (amount_text : string) : FormData :=
  [("customerId", EntryString "123");
   ("amount", EntryString amount_text);
   ("status", EntryString "pending")].

(** A form that is valid for both update handlers. *)
Definition jane_and_invoice : FormData := (jane ++ invoice_form "49.99")%list.

(** ** The diagnostic route *)

Import Route.

(** The [catch] block of [GET], entered with [error] after the trace [tr]. *)
Definition rollback (w : World) (error : Exn) (tr : list Event)
  : Outcome Response * list Event :=
  (match sql_answer w tr Rollback with
   | inr _ => Returned {| body := BodyError error; status := 500 |}
   | inl e' => Raised e'
   end,
   (tr ++ [Sql Rollback (sql_answer w tr Rollback)])%list).

(** ** Submitted fields and their messages *)

(** The messages of the issues whose path is [k]. *)
Definition messages_at (k : string) (issues : list Issue) : list string :=
  map issue_message (filter (fun i => String.eqb (issue_path i) k) issues).

(** Messages of each field of the submitted form, as its schema gives
    them. *)
Definition field_messages (nameRegex : string -> bool) (m : Mutation)
  : list (string * list string) :=
  match m with
  | CallCreateCustomer _ fd | CallUpdateCustomer _ _ fd =>
      [("name", messages (customerSchema_name nameRegex (get fd "name")));
       ("email", messages (customerSchema_email (get fd "email")));
       ("url", messages (customerSchema_url (get fd "url")))]
  | CallCreateInvoice _ fd | CallUpdateInvoice _ _ fd =>
      [("customerId", messages (InvoiceSchema_customerId (get fd "customerId")));
       ("amount", messages (InvoiceSchema_amount (get fd "amount")));
       ("status", messages (InvoiceSchema_status (get fd "status")))]
  | CallDeleteCustomer _ | CallDeleteInvoice _ => []
  end.

(** The value submitted for a field. *)
Definition submitted (m : Mutation) (k : string) : value :=
  match m with
  | CallCreateCustomer _ fd | CallUpdateCustomer _ _ fd
  | CallCreateInvoice _ fd | CallUpdateInvoice _ _ fd => get fd k
  | CallDeleteCustomer _ | CallDeleteInvoice _ => VUndefined
  end.

Definition on_invoices (m : Mutation) : bool :=
  match m with
  | CallCreateInvoice _ _ | CallUpdateInvoice _ _ _ | CallDeleteInvoice _ => true
  | _ => false
  end.

Definition present (ms : list string) : option (list string) :=
  match ms with [] => None | _ => Some ms end.

(** The schemas of the two forms complain whenever they do not answer
    [Valid]. *)
Definition complains {T} (s : Schema T) : Prop :=
  forall v, messages (s v) = [] -> exists x, s v = Valid x.

(** No entry of the form has the name [k]. *)
Definition absent (k : string) (fd : FormData) : Prop :=
  forall v, ~ In (k, v) fd.

(** ** Statements and their bound values *)

(** The value bound in the WHERE clause of an UPDATE statement. *)
Definition where_param (q : Statement) : option SqlParam :=
  match q with
  | UpdateCustomers _ _ _ p => Some p
  | UpdateInvoices _ _ _ p => Some p
  | _ => None
  end.

(** The statements of a trace, in the order of their execution. *)
Fixpoint statements (tr : list Event) : list Statement :=
  match tr with
  | [] => []
  | Sql q _ :: rest => q :: statements rest
  | _ :: rest => statements rest
  end.

Definition persisted_amount (q : Statement) : option SqlParam :=
  match q with
  | InsertIntoInvoices _ a _ _ => Some a
  | UpdateInvoices _ a _ _ => Some a
  | _ => None
  end.

Definition persisted_date (q : Statement) : option SqlParam :=
  match q with
  | InsertIntoInvoices _ _ _ d => Some d
  | _ => None
  end.

(** Rounding to the nearest integer, ties upwards, as [Math.round] does
    it.  No handler calls it. *)
Definition round (x : number) : number :=
  match x with
  | S754_finite s m e =>
      if 0 <=? e then x
      else
        let n := if s then Zneg m else Zpos m in
        binary_normalize prec emax ((2 * n + 2 ^ (- e)) / 2 ^ (1 - e)) 0 s
  | _ => x
  end.

(** ** Dates *)

(** Days of the year that precede month [m], in a year with [l] leap days;
    month 12 stands for the end of the year. *)
Definition days_before_month (m l : Z) : Z :=
  match m with
  | 0 => 0 | 1 => 31 | 2 => 59 + l | 3 => 90 + l | 4 => 120 + l | 5 => 151 + l
  | 6 => 181 + l | 7 => 212 + l | 8 => 243 + l | 9 => 273 + l | 10 => 304 + l
  | 11 => 334 + l
  | _ => 365 + l
  end.

(** The character [c] does not occur in [s]. *)
Fixpoint free_of (c : ascii) (s : string) : Prop :=
  match s with
  | EmptyString => True
  | String c' r => c' <> c /\ free_of c r
  end.

(** ** Further vocabulary *)

(** The statement that belongs to a handler: its verb on its table. *)
Definition own_statement (m : Mutation) (q : Statement) : bool :=
  match m, q with
  | CallCreateCustomer _ _, InsertIntoCustomers _ _ _
  | CallUpdateCustomer _ _ _, UpdateCustomers _ _ _ _
  | CallDeleteCustomer _, DeleteFromCustomers _
  | CallCreateInvoice _ _, InsertIntoInvoices _ _ _ _
  | CallUpdateInvoice _ _ _, UpdateInvoices _ _ _ _
  | CallDeleteInvoice _, DeleteFromInvoices _ => true
  | _, _ => false
  end.

(** The field errors of what a handler returned; none when it returned
    no [errors] or did not return. *)
Definition returned_errors (o : Outcome (option FormState)) : FieldErrors :=
  match o with
  | Returned (Some st) => match errors st with Some fe => fe | None => [] end
  | _ => []
  end.

(** The fields that the form of a handler is parsed for. *)
Definition form_fields (m : Mutation) : list string :=
  match m with
  | CallCreateCustomer _ _ | CallUpdateCustomer _ _ _ => ["name"; "email"; "url"]
  | CallCreateInvoice _ _ | CallUpdateInvoice _ _ _ => ["customerId"; "amount"; "status"]
  | CallDeleteCustomer _ | CallDeleteInvoice _ => []
  end.

(** What a literal with a minus sign can denote: NaN, the negative zero,
    the negative infinity or a negative number. *)
Definition not_above_zero (x : number) : Prop :=
  x = S754_nan \/ x = S754_zero true \/ x = S754_infinity true
  \/ exists m e, x = S754_finite true m e.

(** The rows written to the console, in the order of the calls. *)
Fixpoint logged (tr : list Event) : list Row :=
  match tr with
  | [] => []
  | ConsoleLog r :: rest => r :: logged rest
  | _ :: rest => logged rest
  end.

(** The rows that the reads of the revenue table have returned. *)
Fixpoint rows_read (tr : list Event) : list Row :=
  match tr with
  | [] => []
  | Sql SelectRevenue (inr rows) :: rest => (rows ++ rows_read rest)%list
  | _ :: rest => rows_read rest
  end.

(** The same call with further entries appended to its form. *)
Definition with_appended (extra : FormData) (m : Mutation) : Mutation :=
  match m with
  | CallCreateCustomer prev fd => CallCreateCustomer prev (fd ++ extra)%list
  | CallUpdateCustomer id prev fd => CallUpdateCustomer id prev (fd ++ extra)%list
  | CallCreateInvoice prev fd => CallCreateInvoice prev (fd ++ extra)%list
  | CallUpdateInvoice id prev fd => CallUpdateInvoice id prev (fd ++ extra)%list
  | CallDeleteCustomer id => CallDeleteCustomer id
  | CallDeleteInvoice id => CallDeleteInvoice id
  end.

(** Tactics: a trace without failed statement; the answers of the store
    in two worlds; the next character of the scheme of a url. *)
Ltac no_failure H :=
  let q := fresh "q" in
  let e := fresh "e" in
  destruct H as (q & e & H); cbn in H;
  repeat (destruct H as [H | H]; [discriminate H |]); destruct H.

Ltac two_answers :=
  unfold bind, attempt, try_catch, bind, sql, ret, new_Date, revalidatePath,
         redirect, emit;
  cbn [app fst snd];
  match goal with
  | |- context [sql_answer ?w1 [] ?q1] =>
      destruct (sql_answer w1 [] q1);
      match goal with
      | |- context [sql_answer ?w2 [] ?q2] => destruct (sql_answer w2 [] q2)
      end
  end;
  cbn [fst snd]; intros H1 H2;
  first [reflexivity | solve [no_failure H1] | solve [no_failure H2]].

Ltac next_char H :=
  match type of H with
  | context [map to_lower ?l] =>
      let c := fresh "c" in
      destruct l as [| c l]; cbn [map] in H; [discriminate H |];
      destruct (to_lower c) as [[] [] [] [] [] [] [] []] eqn:?; try discriminate H
  end.

(** * Properties *)

(** ** The platform on examples *)

Example StringToNumber_decimal :
  StringToNumber "49.99" = S754_finite false 7035467042882847 (-47)
  /\ StringToNumber " 1e3 " = of_Z 1000
  /\ StringToNumber ".5" = S754_finite false 4503599627370496 (-53)
  /\ StringToNumber "-0" = S754_zero true
  /\ StringToNumber "0x1F" = of_Z 31.
Proof. repeat split; vm_compute; reflexivity. Qed.

Example StringToNumber_other :
  StringToNumber EmptyString = pos_zero
  /\ StringToNumber "   " = pos_zero
  /\ StringToNumber "abc" = NaN
  /\ StringToNumber "1e" = NaN
  /\ StringToNumber "12px" = NaN
  /\ StringToNumber "-Infinity" = S754_infinity true
  /\ StringToNumber "1.7976931348623159e308" = Infinity.
Proof. repeat split; vm_compute; reflexivity. Qed.

Example toISOString_examples :
  toISOString 0 = "1970-01-01T00:00:00.000Z"
  /\ toISOString (-1) = "1969-12-31T23:59:59.999Z"
  /\ toISOString 951782400000 = "2000-02-29T00:00:00.000Z"
  /\ toISOString 4107542400000 = "2100-03-01T00:00:00.000Z"
  /\ toISOString 253402300800000 = "+010000-01-01T00:00:00.000Z"
  /\ toISOString (now healthy) = "2025-11-03T02:40:00.000Z".
Proof. repeat split; vm_compute; reflexivity. Qed.

Example url_test_examples :
  map url_test ["https://x.com"; "HTTP://Example.ORG/a?b=1"; "ftp://x.com";
                "https://x"; "https://.com"; "https://x.com/a b"; EmptyString]
  = [true; true; false; false; false; false; false].
Proof. vm_compute. reflexivity. Qed.

(** A customer is created: one INSERT, the listing is invalidated, the
    caller is redirected. *)
Example createCustomer_jane :
  run (createCustomer example_nameRegex no_state jane) healthy
  = (Raised (NextRedirect "/dashboard/customers"),
     [Sql (InsertIntoCustomers (PString "jane@x.com") (PString "Jane Doe")
             (PString "https://x.com")) (inr []);
      RevalidatePath "/dashboard/customers";
      Redirect "/dashboard/customers"]).
Proof. vm_compute. reflexivity. Qed.

(** An invoice of amount 0 is refused and nothing is executed. *)
Example createInvoice_zero :
  run (createInvoice no_state (invoice_form "0")) healthy
  = (Returned (Some {| errors := Some [("amount",
                                        ["Please enter an amount greater than $0."])];
                       message := Some "Missing Fields. Failed to Create Invoice." |}),
     []).
Proof. vm_compute. reflexivity. Qed.

(** An empty form: every field of the invoice has its message. *)
Example createInvoice_empty_form :
  run (createInvoice no_state []) healthy
  = (Returned (Some {| errors := Some [("customerId", ["Please select a customer."]);
                                       ("amount",
                                        ["Please enter an amount greater than $0."]);
                                       ("status", ["Please select an invoice status."])];
                       message := Some "Missing Fields. Failed to Create Invoice." |}),
     []).
Proof. vm_compute. reflexivity. Qed.

(** ** Calls of the mutation handlers *)

Lemma handler_run nameRegex w m : Run nameRegex w m (run (handler nameRegex m) w).
Proof.
  destruct m as [prev fd | id prev fd | id | prev fd | id prev fd | id];
    cbn [handler];
    unfold run, createCustomer, updateCustomer, deleteCustomer,
           createInvoice, updateInvoice, deleteInvoice, UpdateInvoice.
  - destruct (customerSchema nameRegex _ _ _) as [d | issues] eqn:Hv;
      [persist_case | invalid_case].
  - destruct (customerSchema nameRegex _ _ _) as [d | issues] eqn:Hv;
      [persist_case | invalid_case].
  - persist_case.
  - destruct (CreateInvoice _ _ _) as [d | issues] eqn:Hv;
      [persist_case | invalid_case].
  - destruct (CreateInvoice _ _ _) as [d | issues] eqn:Hv;
      [persist_case | invalid_case].
  - persist_case.
Qed.

(** ** Persistence failures (C2) and successes (C6) *)

Lemma in_singleton_sql q a ev : In ev [Sql q a] -> ev = Sql q a.
Proof. intros [H | []]; auto. Qed.

(** C2. Whichever mutation handler is called with arguments that pass
    its validation, if the store rejects the statement of the call then
    the handler returns (it does not throw) a result whose message starts
    with "Database Error"; the trace of the call is that one rejected
    statement, so that neither a cache invalidation nor a redirect takes
    place. *)
Theorem persistence_failure_reported nameRegex w m q e :
  validation nameRegex m = None ->
  statement nameRegex w m = Some q ->
  sql_answer w [] q = inl e ->
  exists msg,
    run (handler nameRegex m) w
    = (Returned (Some {| errors := None; message := Some msg |}), [Sql q (inl e)])
    /\ prefix "Database Error" msg = true
    /\ (forall p, ~ In (RevalidatePath p) (snd (run (handler nameRegex m) w)))
    /\ (forall p, ~ In (Redirect p) (snd (run (handler nameRegex m) w))).
Proof.
  intros Hv Hq Ha.
  pose proof (handler_run nameRegex w m) as HR.
  destruct (run (handler nameRegex m) w) as [out tr].
  inversion HR as [issues r Hv' He | q' e' msg Hv' Hq' Ha' Hp | q' rows Hv' Hq' Ha'];
    subst; try congruence.
  assert (q' = q) as -> by congruence.
  assert (e' = e) as -> by congruence.
  exists msg. cbn [snd]. repeat split; trivial.
  - intros p Hp'. apply in_singleton_sql in Hp'. discriminate.
  - intros p Hp'. apply in_singleton_sql in Hp'. discriminate.
Qed.

Lemma persistence_failure_reported_witness :
  exists msg,
    run (updateCustomer example_nameRegex "42" no_state jane) unreachable
    = (Returned (Some {| errors := None; message := Some msg |}),
       [Sql (UpdateCustomers (PString "jane@x.com") (PString "Jane Doe")
               (PString "https://x.com") (PString "jane@x.com"))
            (inl (DbError "connection refused"))])
    /\ prefix "Database Error" msg = true.
Proof.
  destruct (persistence_failure_reported example_nameRegex unreachable
              (CallUpdateCustomer "42" no_state jane) _ _ eq_refl eq_refl eq_refl)
    as (msg & Hrun & Hp & _).
  exists msg. split; [exact Hrun | exact Hp].
Defined.

(** C6. Whichever mutation handler is called with arguments that pass
    its validation, if the store accepts the statement of the call then
    the trace of the call is that statement, then one cache invalidation
    of the owning listing and, for create and update, the redirect to
    that listing, in this order: the invalidation takes place exactly
    once and before the redirect.  Create and update end in the redirect;
    delete returns, without any redirect. *)
Theorem success_invalidates_then_redirects nameRegex w m q rows :
  validation nameRegex m = None ->
  statement nameRegex w m = Some q ->
  sql_answer w [] q = inr rows ->
  run (handler nameRegex m) w
  = (if is_delete m then Returned None else Raised (NextRedirect (listing m)),
     if is_delete m
     then [Sql q (inr rows); RevalidatePath (listing m)]
     else [Sql q (inr rows); RevalidatePath (listing m); Redirect (listing m)]).
Proof.
  intros Hv Hq Ha.
  pose proof (handler_run nameRegex w m) as HR.
  destruct (run (handler nameRegex m) w) as [out tr].
  inversion HR as [issues r Hv' He | q' e' msg Hv' Hq' Ha' Hp | q' rows' Hv' Hq' Ha'];
    subst; try congruence.
  assert (q' = q) as -> by congruence.
  assert (rows' = rows) as -> by congruence.
  destruct (is_delete m); reflexivity.
Qed.

Lemma success_invalidates_then_redirects_witness :
  run (createCustomer example_nameRegex no_state jane) healthy
  = (Raised (NextRedirect "/dashboard/customers"),
     [Sql (InsertIntoCustomers (PString "jane@x.com") (PString "Jane Doe")
             (PString "https://x.com")) (inr []);
      RevalidatePath "/dashboard/customers"; Redirect "/dashboard/customers"])
  /\ run (deleteInvoice "7") healthy
     = (Returned None,
        [Sql (DeleteFromInvoices (PString "7")) (inr []);
         RevalidatePath "/dashboard/invoices"]).
Proof.
  split.
  - exact (success_invalidates_then_redirects example_nameRegex healthy
             (CallCreateCustomer no_state jane) _ _ eq_refl eq_refl eq_refl).
  - exact (success_invalidates_then_redirects example_nameRegex healthy
             (CallDeleteInvoice "7") _ _ eq_refl eq_refl eq_refl).
Defined.

(** ** Authentication (C8, C10) *)

Lemma authenticate_run w prevState fd :
  run (authenticate prevState fd) w =
  (match signIn_answer w "credentials" fd with
   | None => Returned None
   | Some (AuthError type) =>
       if String.eqb type "CredentialsSignin"
       then Returned (Some "Invalid credentials.")
       else Returned (Some "Something went wrong.")
   | Some e => Raised e
   end,
   [SignIn "credentials" fd (signIn_answer w "credentials" fd)]).
Proof.
  unfold run, authenticate, try_catch, bind, signIn, ret, raise. cbn [app].
  destruct (signIn_answer w "credentials" fd) as [[d | type | p | d] |]; try reflexivity.
  destruct (String.eqb type "CredentialsSignin"); reflexivity.
Qed.

(** C8. When [signIn] fails with error [e]: an authentication error of
    kind CredentialsSignin makes [authenticate] return "Invalid
    credentials."; an authentication error of any other kind makes it
    return "Something went wrong."; an error that is no authentication
    error is thrown again to the caller. *)
Theorem authenticate_maps_failures w prevState fd e :
  signIn_answer w "credentials" fd = Some e ->
  let out := fst (run (authenticate prevState fd) w) in
  (e = AuthError "CredentialsSignin" -> out = Returned (Some "Invalid credentials."))
  /\ (forall type, e = AuthError type -> type <> "CredentialsSignin" ->
        out = Returned (Some "Something went wrong."))
  /\ ((forall type, e <> AuthError type) -> out = Raised e).
Proof.
  intros Ha out. subst out. rewrite authenticate_run, Ha. cbn [fst].
  split; [| split].
  - intros ->. reflexivity.
  - intros type -> Hne.
    destruct (String.eqb_spec type "CredentialsSignin") as [Heq | _];
      [contradiction | reflexivity].
  - intros Hne. destruct e as [d | type | p | d]; try reflexivity.
    exfalso. exact (Hne type eq_refl).
Qed.

Lemma authenticate_maps_failures_witness :
  fst (run (authenticate None []) unreachable) = Returned (Some "Invalid credentials.").
Proof.
  exact (proj1 (authenticate_maps_failures unreachable None []
                  (AuthError "CredentialsSignin") eq_refl) eq_refl).
Defined.

(** C10. The previous state has no influence: two calls of
    [authenticate] with the same form data in the same world have the same
    outcome and the same trace, whatever their [prevState]; and when
    [signIn] succeeds, [authenticate] returns [undefined]. *)
Theorem authenticate_ignores_prevState w prevState prevState' fd :
  run (authenticate prevState fd) w = run (authenticate prevState' fd) w
  /\ (signIn_answer w "credentials" fd = None ->
      fst (run (authenticate prevState fd) w) = Returned None).
Proof.
  rewrite !authenticate_run. split; [reflexivity |].
  intros ->. reflexivity.
Qed.

Lemma authenticate_ignores_prevState_witness :
  fst (run (authenticate (Some "Invalid credentials.") []) healthy) = Returned None.
Proof.
  exact (proj2 (authenticate_ignores_prevState healthy
                  (Some "Invalid credentials.") None []) eq_refl).
Defined.

(** ** The diagnostic route (C9) *)

Lemma forEach_console_log rows w tr :
  forEach console_log rows w tr = (Returned tt, (tr ++ map ConsoleLog rows)%list).
Proof.
  revert tr. induction rows as [| r rows IH]; intros tr; cbn [forEach map].
  - unfold ret. now rewrite app_nil_r.
  - unfold bind, console_log, emit. rewrite IH, <- app_assoc. reflexivity.
Qed.

Lemma GET_run w :
  run GET w =
  match sql_answer w [] Begin with
  | inl e => rollback w e [Sql Begin (inl e)]
  | inr r0 =>
      let tr1 := [Sql Begin (inr r0)] in
      match sql_answer w tr1 SelectRevenue with
      | inl e => rollback w e (tr1 ++ [Sql SelectRevenue (inl e)])%list
      | inr rows =>
          let tr2 := (tr1 ++ [Sql SelectRevenue (inr rows)] ++ map ConsoleLog rows)%list in
          match sql_answer w tr2 Commit with
          | inl e => rollback w e (tr2 ++ [Sql Commit (inl e)])%list
          | inr r2 =>
              (Returned {| body := BodyMessage "success"; status := 200 |},
               (tr2 ++ [Sql Commit (inr r2)])%list)
          end
      end
  end.
Proof.
  unfold run, GET, try_catch, rollback.
  unfold bind at 1. unfold sql at 1. cbn [app].
  destruct (sql_answer w [] Begin) as [e | r0] eqn:H0.
  - unfold bind, sql, ret. cbn [app].
    destruct (sql_answer w _ Rollback); reflexivity.
  - unfold bind at 1. unfold sql at 1. cbn [app].
    destruct (sql_answer w _ SelectRevenue) as [e | rows] eqn:H1.
    + unfold bind, sql, ret. cbn [app].
      destruct (sql_answer w _ Rollback); reflexivity.
    + unfold bind at 1. rewrite forEach_console_log.
      unfold bind at 1. unfold sql at 1. cbn [app].
      destruct (sql_answer w _ Commit) as [e | r2] eqn:H2.
      * unfold bind, sql, ret. cbn [app].
        destruct (sql_answer w _ Rollback); reflexivity.
      * reflexivity.
Qed.

(** C9, as stated, fails: the read fails, ROLLBACK is issued and fails as
    well, and [GET] throws instead of returning a response with status
    500. *)
Lemma GET_throws_when_rollback_fails :
  run GET connection_lost =
  (Raised (DbError "connection lost"),
   [Sql Begin (inr []);
    Sql SelectRevenue (inl (DbError "connection lost"));
    Sql Rollback (inl (DbError "connection lost"))])
  /\ forall resp, fst (run GET connection_lost) <> Returned resp.
Proof.
  split; [reflexivity |]. intros resp. cbv. discriminate.
Qed.

(** C9, amended. [GET] executes BEGIN, the read of the revenue table and
    COMMIT in this order.  When the three succeed it logs the rows and
    returns the body {message: "success"} with status 200, which holds no
    row.  At the first of them that fails it executes ROLLBACK; when
    ROLLBACK completes it returns a response with status 500 whose body
    carries the error of the failed statement, and when ROLLBACK fails too
    its error is thrown to the caller. *)
Theorem GET_commits_or_rolls_back w :
  let '(out, tr) := run GET w in
  (exists r0 rows r2,
      tr = ([Sql Begin (inr r0); Sql SelectRevenue (inr rows)]
              ++ map ConsoleLog rows ++ [Sql Commit (inr r2)])%list
      /\ out = Returned {| body := BodyMessage "success"; status := 200 |})
  \/ (exists pre q e a,
        tr = (pre ++ [Sql q (inl e); Sql Rollback a])%list
        /\ In q [Begin; SelectRevenue; Commit]
        /\ (forall q' e', ~ In (Sql q' (inl e')) pre)
        /\ (forall a', ~ In (Sql Rollback a') pre)
        /\ out = match a with
                 | inr _ => Returned {| body := BodyError e; status := 500 |}
                 | inl e' => Raised e'
                 end).
Proof.
  rewrite GET_run.
  destruct (sql_answer w [] Begin) as [e | r0] eqn:H0.
  - right. exists [], Begin, e, (sql_answer w [Sql Begin (inl e)] Rollback).
    unfold rollback. cbn.
    repeat split; auto; try (intros; intro; contradiction).
  - cbv zeta.
    destruct (sql_answer w [Sql Begin (inr r0)] SelectRevenue) as [e | rows] eqn:H1.
    + right. exists [Sql Begin (inr r0)], SelectRevenue, e.
      eexists. unfold rollback. cbn.
      repeat split; auto;
        try (intros; intros [H | []]; discriminate).
    + destruct (sql_answer w _ Commit) as [e | r2] eqn:H2.
      * right.
        exists ([Sql Begin (inr r0); Sql SelectRevenue (inr rows)] ++ map ConsoleLog rows)%list,
               Commit, e.
        eexists. unfold rollback.
        split; [cbn; rewrite <- !app_assoc; reflexivity |].
        split; [cbn; auto |].
        split; [| split; [| reflexivity]].
        -- intros q' e' [H | [H | H]]; try discriminate.
           apply in_map_iff in H. destruct H as (x & Hx & _). discriminate.
        -- intros a' [H | [H | H]]; try discriminate.
           apply in_map_iff in H. destruct H as (x & Hx & _). discriminate.
      * left. exists r0, rows, r2. split; reflexivity.
Qed.

(** ** Validation failures (C4) *)

Lemma field_add_error k k' msg fe :
  field k (add_error k' msg fe) =
  if String.eqb k k'
  then Some (match field k fe with Some ms => ms ++ [msg] | None => [msg] end)%list
  else field k fe.
Proof.
  induction fe as [| [k0 ms0] fe IH]; cbn [add_error field].
  - reflexivity.
  - destruct (String.eqb_spec k' k0) as [-> | Hne]; cbn [field].
    + destruct (String.eqb k k0); reflexivity.
    + rewrite IH. destruct (String.eqb_spec k k0) as [-> | Hne'].
      * destruct (String.eqb_spec k0 k') as [E | _]; [congruence | reflexivity].
      * reflexivity.
Qed.

Lemma field_fold_left k issues fe :
  field k (fold_left (fun fe i => add_error (issue_path i) (issue_message i) fe) issues fe)
  = match field k fe with
    | Some ms => Some (ms ++ messages_at k issues)%list
    | None => present (messages_at k issues)
    end.
Proof.
  revert fe. induction issues as [| i issues IH]; intros fe; cbn [fold_left].
  - unfold messages_at. cbn. destruct (field k fe); [rewrite app_nil_r |]; reflexivity.
  - rewrite IH, field_add_error. unfold messages_at. cbn [filter].
    rewrite (String.eqb_sym (issue_path i) k).
    destruct (String.eqb k (issue_path i)); cbn [map].
    + destruct (field k fe); [rewrite <- app_assoc |]; reflexivity.
    + reflexivity.
Qed.

Lemma field_fieldErrors k issues :
  field k (fieldErrors issues) = present (messages_at k issues).
Proof. unfold fieldErrors. now rewrite field_fold_left. Qed.

Lemma messages_at_app k l1 l2 :
  messages_at k (l1 ++ l2) = (messages_at k l1 ++ messages_at k l2)%list.
Proof. unfold messages_at. now rewrite filter_app, map_app. Qed.

Lemma messages_at_issues_at {T} k k' (r : ParseReturn T) :
  messages_at k (issues_at k' r) = if String.eqb k' k then messages r else [].
Proof.
  unfold messages_at, issues_at.
  induction (messages r) as [| m ms IH]; cbn [map filter issue_path].
  - destruct (String.eqb k' k); reflexivity.
  - destruct (String.eqb k' k); cbn [map issue_message]; [f_equal |]; exact IH.
Qed.

(** Every key of a failed object has the messages of its own schema. *)
Lemma object3_field_errors {A B C T} (mk : A -> B -> C -> T) k1 r1 k2 r2 k3 r3 issues :
  object3 mk k1 r1 k2 r2 k3 r3 = Failure issues ->
  forall k, messages_at k issues =
    ((if String.eqb k1 k then messages r1 else [])
     ++ (if String.eqb k2 k then messages r2 else [])
     ++ (if String.eqb k3 k then messages r3 else []))%list.
Proof.
  intros H k.
  assert (issues = (issues_at k1 r1 ++ issues_at k2 r2 ++ issues_at k3 r3)%list) as ->.
  { unfold object3 in H. destruct r1, r2, r3; congruence. }
  now rewrite !messages_at_app, !messages_at_issues_at.
Qed.

(** A failed object has a key whose schema did not answer [Valid]. *)
Lemma object3_failure {A B C T} (mk : A -> B -> C -> T) k1 r1 k2 r2 k3 r3 issues :
  object3 mk k1 r1 k2 r2 k3 r3 = Failure issues ->
  (forall a, r1 <> Valid a) \/ (forall b, r2 <> Valid b) \/ (forall c, r3 <> Valid c).
Proof.
  unfold object3. intros H.
  destruct r1; [| left; congruence | left; congruence].
  destruct r2; [| right; left; congruence | right; left; congruence].
  destruct r3; [discriminate | |]; right; right; congruence.
Qed.

Lemma complains_check {T} ok msg (s : Schema T) : complains s -> complains (check ok msg s).
Proof.
  intros Hs v. unfold check. specialize (Hs v).
  destruct (s v) as [x | x ms | ms]; cbn [messages] in *.
  - destruct (ok x); cbn [messages]; [eauto | discriminate].
  - destruct (ok x); cbn [messages]; intros H.
    + destruct (Hs H) as [y Hy]. discriminate.
    + now destruct ms.
  - intros H. destruct (Hs H) as [y Hy]. discriminate.
Qed.

Lemma complains_z_string p : complains (z_string p).
Proof. intros v. destruct v; cbn; eauto; discriminate. Qed.

Lemma complains_optional {T} (s : Schema T) : complains s -> complains (optional s).
Proof.
  intros Hs v. unfold optional. specialize (Hs v).
  destruct v; [eauto | | |];
    (destruct (s _) as [x | x ms | ms]; cbn [messages] in *; [eauto | |];
     intros H; destruct (Hs H) as [y Hy]; discriminate).
Qed.

Lemma complains_z_coerce_number p : complains (z_coerce_number p).
Proof.
  intros v. unfold z_coerce_number. destruct (isNaN (ToNumber v)); cbn; eauto; discriminate.
Qed.

Lemma complains_z_enum vs p : complains (z_enum vs p).
Proof.
  intros v. unfold z_enum. destruct v as [| | s |]; cbn; try discriminate.
  destruct (existsb (String.eqb s) vs); cbn; eauto; discriminate.
Qed.

Lemma customer_fields_complain nameRegex :
  complains (customerSchema_name nameRegex)
  /\ complains customerSchema_email /\ complains customerSchema_url.
Proof.
  repeat split.
  - apply complains_check, complains_check, complains_z_string.
  - apply complains_optional, complains_z_string.
  - apply complains_optional, complains_check, complains_z_string.
Qed.

Lemma invoice_fields_complain :
  complains InvoiceSchema_customerId
  /\ complains InvoiceSchema_amount /\ complains InvoiceSchema_status.
Proof.
  repeat split.
  - apply complains_z_string.
  - apply complains_check, complains_z_coerce_number.
  - apply complains_z_enum.
Qed.

Lemma not_valid_complains {T} (s : Schema T) v :
  complains s -> (forall x, s v <> Valid x) -> messages (s v) <> [].
Proof. intros Hs Hn He. destruct (Hs v He) as [x Hx]. exact (Hn x Hx). Qed.

Lemma amount_not_positive v :
  leb (ToNumber v) (of_Z 0) = true ->
  messages (InvoiceSchema_amount v) = ["Please enter an amount greater than $0."].
Proof.
  intros H. unfold InvoiceSchema_amount, gt, check, z_coerce_number.
  destruct (ToNumber v) eqn:E; cbn [isNaN]; try discriminate H; rewrite H; reflexivity.
Qed.

Lemma amount_not_a_number v :
  isNaN (ToNumber v) = true ->
  messages (InvoiceSchema_amount v) = ["Expected number, received nan"].
Proof.
  intros H. unfold InvoiceSchema_amount, gt, check, z_coerce_number.
  rewrite H. reflexivity.
Qed.

Lemma name_empty nameRegex :
  In "Name must contain at least 1 character."
     (messages (customerSchema_name nameRegex (VString EmptyString))).
Proof.
  unfold customerSchema_name, refine, min, check. cbn.
  destruct (nameRegex EmptyString); cbn; auto.
Qed.

Lemma name_rejected nameRegex s :
  nameRegex s = false ->
  In "Name can only have valid characters."
     (messages (customerSchema_name nameRegex (VString s))).
Proof.
  intros H. unfold customerSchema_name, refine, min, check. cbn [z_string].
  destruct (negb _); rewrite H; cbn; auto.
Qed.

(** C4, as stated, fails: an amount that is not numeric is answered with
    the message of the type check, not with the message of the bound. *)
Lemma non_numeric_amount_message :
  isNaN (ToNumber (submitted (CallCreateInvoice no_state (invoice_form "abc")) "amount")) = true
  /\ run (createInvoice no_state (invoice_form "abc")) healthy
     = (Returned (Some {| errors := Some [("amount", ["Expected number, received nan"])];
                          message := Some "Missing Fields. Failed to Create Invoice." |}),
        [])
  /\ ~ In "Please enter an amount greater than $0." ["Expected number, received nan"].
Proof.
  split; [reflexivity |]. split; [reflexivity |].
  intros [H | []]. discriminate.
Qed.

(** C4, amended. When the validation of a create or update submission
    fails, the handler returns, without any call of a collaborator, a
    result whose [errors] holds, for every field that its schema rejects,
    the messages of that field, and nothing for the other fields; at least
    one field is rejected.  The messages of [amount] are "Please enter an
    amount greater than $0." when the submitted amount coerces to a number
    that is not above 0, and "Expected number, received nan" when it
    coerces to NaN.  The messages of [name] hold "Name must contain at
    least 1 character." for the empty name and "Name can only have valid
    characters." for a name that [nameRegex] rejects. *)
Theorem invalid_submission_reports_fields nameRegex w m issues :
  validation nameRegex m = Some issues ->
  (exists st, run (handler nameRegex m) w = (Returned (Some st), [])
              /\ errors st = Some (fieldErrors issues))
  /\ (exists k ms, In (k, ms) (field_messages nameRegex m) /\ ms <> [])
  /\ (forall k ms, In (k, ms) (field_messages nameRegex m) ->
        field k (fieldErrors issues) = present ms)
  /\ (on_invoices m = true ->
        (leb (ToNumber (submitted m "amount")) (of_Z 0) = true ->
           field "amount" (fieldErrors issues)
           = Some ["Please enter an amount greater than $0."])
        /\ (isNaN (ToNumber (submitted m "amount")) = true ->
           field "amount" (fieldErrors issues) = Some ["Expected number, received nan"]))
  /\ (on_invoices m = false ->
        (submitted m "name" = VString EmptyString ->
           exists ms, field "name" (fieldErrors issues) = Some ms
                      /\ In "Name must contain at least 1 character." ms)
        /\ (forall s, submitted m "name" = VString s -> nameRegex s = false ->
           exists ms, field "name" (fieldErrors issues) = Some ms
                      /\ In "Name can only have valid characters." ms)).
Proof.
  intros Hv.
  assert (Hfields : forall k ms, In (k, ms) (field_messages nameRegex m) ->
                      field k (fieldErrors issues) = present ms).
  { intros k ms Hin. rewrite field_fieldErrors.
    destruct m as [prev fd | id prev fd | id | prev fd | id prev fd | id];
      cbn [validation field_messages] in *; try discriminate.
    1,2: destruct (customerSchema nameRegex _ _ _) as [d | iss] eqn:Hp; [discriminate |];
         injection Hv as ->.
    3,4: destruct (CreateInvoice _ _ _) as [d | iss] eqn:Hp; [discriminate |];
         injection Hv as ->.
    all: rewrite (object3_field_errors _ _ _ _ _ _ _ _ Hp k);
         destruct Hin as [H | [H | [H | []]]]; injection H as <- <-; cbn;
         rewrite ?app_nil_r; reflexivity. }
  assert (Hpresent : forall k ms x, field k (fieldErrors issues) = present ms ->
                       In x ms -> exists ms', field k (fieldErrors issues) = Some ms'
                                              /\ In x ms').
  { intros k ms x Hf Hin. exists ms. destruct ms; [destruct Hin |]. split; assumption. }
  split; [| split; [| split; [exact Hfields | split]]].
  - pose proof (handler_run nameRegex w m) as HR.
    inversion HR as [issues' r Hv' He Heq | q e msg Hv' | q rows Hv']; try congruence.
    destruct r as [st |]; [| discriminate].
    exists st. split; [reflexivity |]. cbn in He. congruence.
  - destruct m as [prev fd | id prev fd | id | prev fd | id prev fd | id];
      cbn [validation field_messages] in *; try discriminate.
    1,2: destruct (customerSchema nameRegex _ _ _) as [d | iss] eqn:Hp; [discriminate |];
         destruct (customer_fields_complain nameRegex) as (C1 & C2 & C3).
    3,4: destruct (CreateInvoice _ _ _) as [d | iss] eqn:Hp; [discriminate |];
         destruct invoice_fields_complain as (C1 & C2 & C3).
    all: destruct (object3_failure _ _ _ _ _ _ _ _ Hp) as [H | [H | H]];
         [ eexists _, _; split; [left; reflexivity | exact (not_valid_complains _ _ C1 H)]
         | eexists _, _; split; [right; left; reflexivity
                                | exact (not_valid_complains _ _ C2 H)]
         | eexists _, _; split; [right; right; left; reflexivity
                                | exact (not_valid_complains _ _ C3 H)] ].
  - intros Hi. split; intros Ha.
    + destruct m; try discriminate Hi; cbn [submitted] in Ha;
        (rewrite (Hfields "amount" _ ltac:(cbn; auto)), (amount_not_positive _ Ha);
         reflexivity) || discriminate Hv.
    + destruct m; try discriminate Hi; cbn [submitted] in Ha;
        (rewrite (Hfields "amount" _ ltac:(cbn; auto)), (amount_not_a_number _ Ha);
         reflexivity) || discriminate Hv.
  - intros Hi. split.
    + intros Hn. destruct m; try discriminate Hi; cbn [submitted] in Hn;
        try discriminate Hv;
        (eapply Hpresent; [apply Hfields; left; reflexivity |];
         rewrite Hn; apply name_empty).
    + intros s Hn Hr. destruct m; try discriminate Hi; cbn [submitted] in Hn;
        try discriminate Hv;
        (eapply Hpresent; [apply Hfields; left; reflexivity |];
         rewrite Hn; apply name_rejected, Hr).
Qed.

Lemma invalid_submission_reports_fields_witness :
  field "amount"
    (fieldErrors [{| issue_path := "amount";
                     issue_message := "Please enter an amount greater than $0." |}])
  = Some ["Please enter an amount greater than $0."].
Proof.
  exact (proj1 (proj1 (proj2 (proj2 (proj2
           (invalid_submission_reports_fields example_nameRegex healthy
              (CallCreateInvoice no_state (invoice_form "0")) _ eq_refl)))) eq_refl)
           eq_refl).
Defined.

(** ** Optional customer fields (C5) *)

Lemma get_absent k fd : absent k fd -> get fd k = VNull.
Proof.
  induction fd as [| [k0 v0] fd IH]; intros H; cbn [get]; [reflexivity |].
  destruct (String.eqb_spec k0 k) as [-> | Hne].
  - exfalso. apply (H v0). left. reflexivity.
  - apply IH. intros v Hin. apply (H v). right. exact Hin.
Qed.

(** An email that is present is taken as it is, whatever the string. *)
Lemma email_any_string_accepted s : customerSchema_email (VString s) = Valid (Some s).
Proof. reflexivity. Qed.

(** C5, on the code.  A submission with a valid name and neither an
    [email] nor a [url] entry does not pass validation: [formData.get]
    answers [null] for an absent entry, and [.optional()] lets only
    [undefined] through.  The handlers return the two field errors and
    execute no statement. *)
Theorem absent_optional_fields_rejected nameRegex w id prevState fd s :
  get fd "name" = VString s -> s <> EmptyString -> nameRegex s = true ->
  absent "email" fd -> absent "url" fd ->
  let fe := [("email", ["Invalid Email"]); ("url", ["Expected string, received null"])] in
  run (createCustomer nameRegex prevState fd) w
  = (Returned (Some {| errors := Some fe; message := None |}), [])
  /\ run (updateCustomer nameRegex id prevState fd) w
     = (Returned (Some {| errors := Some fe;
                          message := Some "Missing Fields. Failed to Update Customer." |}),
        []).
Proof.
  intros Hn Hs Hr He Hu fe.
  assert (Hp : customerSchema nameRegex (get fd "name") (get fd "email") (get fd "url")
               = Failure [{| issue_path := "email"; issue_message := "Invalid Email" |};
                          {| issue_path := "url";
                             issue_message := "Expected string, received null" |}]).
  { rewrite Hn, (get_absent _ _ He), (get_absent _ _ Hu).
    unfold customerSchema, customerSchema_name, refine, min, check. cbn [z_string].
    destruct s as [| c s']; [congruence |]. cbn [String.length Nat.ltb Nat.leb negb].
    rewrite Hr. reflexivity. }
  unfold run, createCustomer, updateCustomer. rewrite Hp. split; reflexivity.
Qed.

Lemma absent_optional_fields_rejected_witness :
  run (createCustomer example_nameRegex no_state [("name", EntryString "Jane Doe")]) healthy
  = (Returned (Some {| errors := Some [("email", ["Invalid Email"]);
                                       ("url", ["Expected string, received null"])];
                       message := None |}),
     []).
Proof.
  refine (proj1 (absent_optional_fields_rejected example_nameRegex healthy "1" no_state
                   [("name", EntryString "Jane Doe")] "Jane Doe" eq_refl _ eq_refl _ _)).
  - discriminate.
  - intros v [H | []]. discriminate.
  - intros v [H | []]. discriminate.
Defined.

(** ** The row an update modifies (C3) *)

Lemma statements_of_run nameRegex w m :
  validation nameRegex m = None ->
  exists q, statement nameRegex w m = Some q
            /\ statements (snd (run (handler nameRegex m) w)) = [q].
Proof.
  intros Hv. pose proof (handler_run nameRegex w m) as HR.
  inversion HR as [issues r Hv' | q e msg Hv' Hq | q rows Hv' Hq]; try congruence.
  - exists q. split; [exact Hq | reflexivity].
  - exists q. split; [exact Hq |]. destruct (is_delete m); reflexivity.
Qed.

(** C3, on the code.  [updateInvoice] binds its [id] argument in the
    WHERE clause; [updateCustomer] does not: it binds the email of the
    validated form data, and its statement is the same whatever the [id]. *)
Theorem update_where_clause nameRegex w id prevState fd :
  validation nameRegex (CallUpdateCustomer id prevState fd) = None ->
  validation nameRegex (CallUpdateInvoice id prevState fd) = None ->
  (exists q,
      statements (snd (run (updateInvoice id prevState fd) w)) = [q]
      /\ where_param q = Some (PString id))
  /\ (exists q d,
      customerSchema nameRegex (get fd "name") (get fd "email") (get fd "url") = Success d
      /\ statements (snd (run (updateCustomer nameRegex id prevState fd) w)) = [q]
      /\ where_param q = Some (param_of_optional (email d))
      /\ forall id', statements (snd (run (updateCustomer nameRegex id' prevState fd) w)) = [q]).
Proof.
  intros Hc Hi. split.
  - destruct (statements_of_run nameRegex w _ Hi) as (q & Hq & Hs).
    exists q. split; [exact Hs |].
    cbn [statement validation] in *.
    destruct (CreateInvoice _ _ _); [| discriminate]. injection Hq as <-. reflexivity.
  - destruct (statements_of_run nameRegex w _ Hc) as (q & Hq & Hs).
    cbn [statement validation handler] in *.
    destruct (customerSchema nameRegex _ _ _) as [d | iss] eqn:Hp; [| discriminate].
    exists q, d. injection Hq as <-.
    split; [reflexivity |]. split; [exact Hs |]. split; [reflexivity |].
    intros id'.
    destruct (statements_of_run nameRegex w (CallUpdateCustomer id' prevState fd))
      as (q' & Hq' & Hs').
    { cbn [validation]. rewrite Hp. reflexivity. }
    cbn [statement handler] in *. rewrite Hp in Hq'. injection Hq' as <-. exact Hs'.
Qed.

Lemma update_where_clause_witness :
  exists q,
    statements (snd (run (updateCustomer example_nameRegex "42" no_state jane_and_invoice)
                         healthy)) = [q]
    /\ where_param q = Some (PString "jane@x.com")
    /\ where_param q <> Some (PString "42").
Proof.
  destruct (proj2 (update_where_clause example_nameRegex healthy "42" no_state
                     jane_and_invoice eq_refl eq_refl))
    as (q & d & Hd & Hs & Hw & _).
  exists q. split; [exact Hs |].
  injection Hd as <-. cbn in Hw. rewrite Hw.
  split; [reflexivity | discriminate].
Defined.

(** ** The amount of an invoice (C1) *)

Lemma CreateInvoice_data fd d :
  CreateInvoice (get fd "customerId") (get fd "amount") (get fd "status") = Success d ->
  amount d = ToNumber (get fd "amount").
Proof.
  unfold CreateInvoice, object3, InvoiceSchema_amount, gt, check, z_coerce_number.
  destruct (InvoiceSchema_customerId _); try discriminate.
  destruct (isNaN (ToNumber (get fd "amount"))); try discriminate.
  destruct (negb _); try discriminate.
  destruct (InvoiceSchema_status _); try discriminate.
  intros H. injection H as <-. reflexivity.
Qed.

(** C1, as stated, fails: the amount "1.15" passes validation and the
    amount bound in the INSERT is the product 114.99999999999999, which
    lies strictly between 114 and 115 and is not its own rounding, 115. *)
Lemma amount_is_not_rounded :
  let x := mul (StringToNumber "1.15") (of_Z 100) in
  statements (snd (run (createInvoice no_state (invoice_form "1.15")) healthy))
  = [InsertIntoInvoices (PString "123") (PNumber x) (PString "pending")
       (PString "2025-11-03")]
  /\ x = S754_finite false 8092405580431359 (-46)
  /\ round x = of_Z 115
  /\ x <> round x
  /\ gtb x (of_Z 114) = true /\ gtb (of_Z 115) x = true.
Proof.
  cbv zeta. split; [vm_compute; reflexivity |].
  split; [vm_compute; reflexivity |].
  split; [vm_compute; reflexivity |].
  split; [vm_compute; discriminate |].
  split; vm_compute; reflexivity.
Qed.

(** C1, amended. For every invoice submission that passes validation, the
    amount bound in the statement of [createInvoice] and of
    [updateInvoice] is the binary64 product of the coerced amount and 100,
    without any rounding; for the amount "49.99" this product is the
    integer 4999. *)
Theorem invoice_amount_is_product w id prevState fd d :
  CreateInvoice (get fd "customerId") (get fd "amount") (get fd "status") = Success d ->
  let cents := mul (ToNumber (get fd "amount")) (of_Z 100) in
  (exists q, statements (snd (run (createInvoice prevState fd) w)) = [q]
             /\ persisted_amount q = Some (PNumber cents))
  /\ (exists q, statements (snd (run (updateInvoice id prevState fd) w)) = [q]
                /\ persisted_amount q = Some (PNumber cents))
  /\ (get fd "amount" = VString "49.99" -> cents = of_Z 4999).
Proof.
  intros Hp cents. subst cents. rewrite <- (CreateInvoice_data _ _ Hp).
  split; [| split].
  - destruct (statements_of_run (fun _ => true) w (CallCreateInvoice prevState fd))
      as (q & Hq & Hs); [cbn [validation]; now rewrite Hp |].
    exists q. split; [exact Hs |].
    cbn [statement] in Hq. rewrite Hp in Hq. injection Hq as <-. reflexivity.
  - destruct (statements_of_run (fun _ => true) w (CallUpdateInvoice id prevState fd))
      as (q & Hq & Hs); [cbn [validation]; now rewrite Hp |].
    exists q. split; [exact Hs |].
    cbn [statement] in Hq. rewrite Hp in Hq. injection Hq as <-. reflexivity.
  - intros Ha. rewrite (CreateInvoice_data _ _ Hp), Ha. vm_compute. reflexivity.
Qed.

Lemma invoice_amount_is_product_witness :
  mul (ToNumber (get (invoice_form "49.99") "amount")) (of_Z 100) = of_Z 4999.
Proof.
  exact (proj2 (proj2 (invoice_amount_is_product healthy "7" no_state
                         (invoice_form "49.99") _ eq_refl)) eq_refl).
Defined.

(** ** The calendar *)

(** [YearFromTime t] is the year that holds the day of [t]. *)
Lemma YearFromTime_spec t :
  DayFromYear (YearFromTime t) <= Day t < DayFromYear (YearFromTime t + 1).
Proof.
  unfold YearFromTime. set (d := Day t). clearbody d.
  set (y := 1970 + d * 400 / 146097).
  assert (Hy : DayFromYear (y - 1) <= d < DayFromYear (y + 2)).
  { subst y. unfold DayFromYear. Z.to_euclidean_division_equations; lia. }
  destruct (Z.ltb_spec d (DayFromYear y)).
  - replace (y - 1 + 1) with y by lia. lia.
  - destruct (Z.leb_spec (DayFromYear (y + 1)) d).
    + replace (y + 1 + 1) with (y + 2) by lia. lia.
    + lia.
Qed.

Lemma DaysInYear_spec y : DayFromYear (y + 1) - DayFromYear y = DaysInYear y.
Proof.
  unfold DayFromYear, DaysInYear.
  destruct (Z.eqb_spec (y mod 4) 0); cbn [negb];
  [destruct (Z.eqb_spec (y mod 100) 0); cbn [negb];
   [destruct (Z.eqb_spec (y mod 400) 0); cbn [negb] | ] | ];
  Z.to_euclidean_division_equations; lia.
Qed.

Lemma DayWithinYear_range t : 0 <= DayWithinYear t < 365 + InLeapYear t.
Proof.
  unfold DayWithinYear, InLeapYear.
  pose proof (YearFromTime_spec t). pose proof (DaysInYear_spec (YearFromTime t)).
  assert (DaysInYear (YearFromTime t) = 365 \/ DaysInYear (YearFromTime t) = 366).
  { unfold DaysInYear. repeat destruct (negb _); auto. }
  destruct (Z.eqb_spec (DaysInYear (YearFromTime t)) 366); lia.
Qed.

(** [MonthFromTime t] is the month that holds the day of [t], and
    [DateFromTime t] its day of the month, counted from 1. *)
Lemma calendar_date_spec t :
  let l := InLeapYear t in
  let m := MonthFromTime t in
  0 <= m <= 11
  /\ days_before_month m l <= DayWithinYear t < days_before_month (m + 1) l
  /\ DateFromTime t = DayWithinYear t - days_before_month m l + 1.
Proof.
  cbv zeta. pose proof (DayWithinYear_range t) as Hr.
  assert (Hl : InLeapYear t = 0 \/ InLeapYear t = 1).
  { unfold InLeapYear. destruct (_ =? _); auto. }
  unfold DateFromTime, MonthFromTime.
  set (l := InLeapYear t) in *. set (dw := DayWithinYear t) in *.
  clearbody l dw.
  repeat match goal with
         | |- context [?a <? ?b] => destruct (Z.ltb_spec a b)
         end;
    repeat match goal with
           | |- context [days_before_month (?a + 1) _] =>
               let v := eval vm_compute in (a + 1) in change (a + 1) with v
           end;
    cbn [days_before_month]; lia.
Qed.

(** ** The date of an invoice (C7) *)

Lemma free_of_append c a b : free_of c a -> free_of c b -> free_of c (a ++ b).
Proof. induction a as [| x a IH]; cbn; [auto | intros [H1 H2] Hb; auto]. Qed.

Lemma split_first sep a b :
  free_of sep a -> hd EmptyString (split sep (a ++ String sep b)) = a.
Proof.
  induction a as [| c a IH]; cbn [append split free_of].
  - intros _. rewrite Ascii.eqb_refl. reflexivity.
  - intros [Hc Ha]. destruct (Ascii.eqb_spec c sep) as [E | _]; [contradiction |].
    specialize (IH Ha). destruct (split sep (a ++ String sep b)) as [| h t]; cbn in *.
    + now subst a.
    + now subst h.
Qed.

Lemma digit_char_not_T z : digit_char z <> "T"%char.
Proof.
  unfold digit_char. intros H.
  pose proof (Z.mod_pos_bound z 10 eq_refl) as Hb.
  apply (f_equal nat_of_ascii) in H.
  rewrite nat_ascii_embedding in H by lia.
  change (nat_of_ascii "T") with 84%nat in H. lia.
Qed.

Lemma padded_free_of_T n z : free_of "T" (padded n z).
Proof.
  revert z. induction n as [| n IH]; intros z; cbn [padded]; [exact I |].
  apply free_of_append; [apply IH |]. split; [apply digit_char_not_T | exact I].
Qed.

Lemma length_append (a b : string) :
  String.length (a ++ b) = (String.length a + String.length b)%nat.
Proof. induction a as [| c a IH]; cbn; [reflexivity | now rewrite IH]. Qed.

Lemma padded_length n z : String.length (padded n z) = n.
Proof.
  revert z. induction n as [| n IH]; intros z; cbn [padded]; [reflexivity |].
  rewrite length_append, IH. cbn. lia.
Qed.

Lemma year_string_free_of_T y : free_of "T" (year_string y).
Proof.
  unfold year_string.
  destruct (_ && _); [apply padded_free_of_T |].
  destruct (y <? 0); (apply free_of_append; [cbn; split; [discriminate | exact I] |]);
    apply padded_free_of_T.
Qed.

Lemma iso_date_free_of_T t : free_of "T" (iso_date t).
Proof.
  unfold iso_date.
  repeat (apply free_of_append;
          try apply year_string_free_of_T; try apply padded_free_of_T;
          try (cbn; split; [discriminate | exact I])).
Qed.

(** The part of the ISO timestamp before the [T] is the calendar date. *)
Lemma date_part_of_toISOString t : hd EmptyString (split "T" (toISOString t)) = iso_date t.
Proof. unfold toISOString. apply split_first, iso_date_free_of_T. Qed.

(** The day of [t] is day [DateFromTime t] of month [MonthFromTime t] of
    year [YearFromTime t]. *)
Lemma calendar_date_of_day t :
  0 <= MonthFromTime t <= 11
  /\ 1 <= DateFromTime t <= 31
  /\ DayFromYear (YearFromTime t)
     + days_before_month (MonthFromTime t) (InLeapYear t)
     + (DateFromTime t - 1) = Day t.
Proof.
  destruct (calendar_date_spec t) as (Hm & Hd & He). cbv zeta in *.
  assert (Hl : InLeapYear t = 0 \/ InLeapYear t = 1).
  { unfold InLeapYear. destruct (_ =? _); auto. }
  split; [exact Hm |]. split.
  - rewrite He. clear He.
    assert (Hc : MonthFromTime t = 0 \/ MonthFromTime t = 1 \/ MonthFromTime t = 2
                 \/ MonthFromTime t = 3 \/ MonthFromTime t = 4 \/ MonthFromTime t = 5
                 \/ MonthFromTime t = 6 \/ MonthFromTime t = 7 \/ MonthFromTime t = 8
                 \/ MonthFromTime t = 9 \/ MonthFromTime t = 10 \/ MonthFromTime t = 11)
      by lia.
    destruct Hl as [Hl | Hl]; rewrite Hl in *;
      repeat (destruct Hc as [Hc | Hc]); rewrite Hc in *; cbn in Hd |- *; lia.
  - rewrite He. unfold DayWithinYear. lia.
Qed.

(** [padded n z] writes [z]: reading it back in base 10 gives [z]. *)
Lemma digits_from_app base acc l1 l2 :
  digits_from base acc (l1 ++ l2)
  = match digits_from base acc l1 with
    | Some a => digits_from base a l2
    | None => None
    end.
Proof.
  revert acc. induction l1 as [| c l1 IH]; intros acc; cbn [app digits_from];
    [reflexivity |].
  destruct (digit_value c) as [v |]; [| reflexivity].
  destruct (v <? base); [apply IH | reflexivity].
Qed.

Lemma digit_value_digit_char z : digit_value (digit_char z) = Some (z mod 10).
Proof.
  pose proof (Z.mod_pos_bound z 10 eq_refl) as Hb.
  unfold digit_value, digit_char, code.
  rewrite nat_ascii_embedding by lia. rewrite Z2Nat.id by lia.
  destruct (Z.leb_spec 48 (48 + z mod 10)); [| lia].
  destruct (Z.leb_spec (48 + z mod 10) 57); [| lia].
  cbn [andb]. f_equal. lia.
Qed.

Lemma chars_append a b : chars (a ++ b) = (chars a ++ chars b)%list.
Proof.
  unfold chars. induction a as [| c a IH]; cbn; [reflexivity | f_equal; exact IH].
Qed.

Lemma chars_length s : List.length (chars s) = String.length s.
Proof. unfold chars. induction s as [| c s IH]; cbn; [reflexivity | now rewrite IH]. Qed.

Lemma padded_denotes n z acc :
  0 <= z < 10 ^ Z.of_nat n ->
  digits_from 10 acc (chars (padded n z)) = Some (acc * 10 ^ Z.of_nat n + z).
Proof.
  revert z acc. induction n as [| n IH]; intros z acc Hz.
  - cbn in *. f_equal. lia.
  - cbn [padded]. rewrite chars_append, digits_from_app.
    rewrite Nat2Z.inj_succ, Z.pow_succ_r in * by lia.
    rewrite IH by (split; [apply Z.div_pos; lia | apply Z.div_lt_upper_bound; lia]).
    cbn [chars list_ascii_of_string digits_from].
    rewrite digit_value_digit_char.
    pose proof (Z.mod_pos_bound z 10 eq_refl) as Hb.
    destruct (Z.ltb_spec (z mod 10) 10); [| lia].
    f_equal. pose proof (Z.div_mod z 10). lia.
Qed.

(** C7. For every call of [createInvoice] that passes validation, the
    date bound in the INSERT is the calendar date, in UTC, of the server's
    clock at the call: the year, the month and the day of the month that
    hold the current day.  No entry of the form takes part in it.  For
    the years 0 to 9999 it is written YYYY-MM-DD, on ten characters. *)
Theorem invoice_date_is_server_date w prevState fd d :
  CreateInvoice (get fd "customerId") (get fd "amount") (get fd "status") = Success d ->
  let t := now w in
  let year := YearFromTime t in
  let month := MonthFromTime t in
  let day := DateFromTime t in
  (exists q, statements (snd (run (createInvoice prevState fd) w)) = [q]
             /\ persisted_date q = Some (PString (iso_date t)))
  /\ (0 <= month <= 11 /\ 1 <= day <= 31
      /\ DayFromYear year + days_before_month month (InLeapYear t) + (day - 1) = Day t)
  /\ (0 <= year <= 9999 ->
      iso_date t = padded 4 year ++ "-" ++ padded 2 (month + 1) ++ "-" ++ padded 2 day
      /\ String.length (iso_date t) = 10%nat
      /\ integer_in 10 (chars (padded 4 year)) = Some year
      /\ integer_in 10 (chars (padded 2 (month + 1))) = Some (month + 1)
      /\ integer_in 10 (chars (padded 2 day)) = Some day).
Proof.
  intros Hp t year month day.
  pose proof (calendar_date_of_day t) as Hcal.
  split; [| split; [exact Hcal |]].
  - destruct (statements_of_run (fun _ => true) w (CallCreateInvoice prevState fd))
      as (q & Hq & Hs); [cbn [validation]; now rewrite Hp |].
    exists q. split; [exact Hs |].
    cbn [statement] in Hq. rewrite Hp, date_part_of_toISOString in Hq.
    injection Hq as <-. reflexivity.
  - intros [H0 H1].
    assert (E : iso_date t = padded 4 year ++ "-" ++ padded 2 (month + 1)
                  ++ "-" ++ padded 2 day).
    { unfold iso_date, year_string. fold year month day.
      destruct (Z.leb_spec 0 year); [| lia].
      destruct (Z.leb_spec year 9999); [| lia]. reflexivity. }
    split; [exact E |].
    split; [rewrite E, !length_append, !padded_length; reflexivity |].
    assert (Hint : forall n z, 0 <= z < 10 ^ Z.of_nat (S n) ->
                     integer_in 10 (chars (padded (S n) z)) = Some z).
    { intros n z Hz. unfold integer_in.
      destruct (chars (padded (S n) z)) eqn:Ec.
      - apply (f_equal (@List.length ascii)) in Ec.
        rewrite chars_length, padded_length in Ec. discriminate.
      - rewrite <- Ec, padded_denotes by exact Hz. f_equal. }
    fold month day in Hcal.
    repeat split; apply Hint; cbn; lia.
Qed.

Lemma invoice_date_is_server_date_witness :
  exists q,
    statements (snd (run (createInvoice no_state
                            (invoice_form "49.99" ++ [("date", EntryString "1999-12-31")])%list)
                         healthy)) = [q]
    /\ persisted_date q = Some (PString "2025-11-03").
Proof.
  exact (proj1 (invoice_date_is_server_date healthy no_state
                  (invoice_form "49.99" ++ [("date", EntryString "1999-12-31")])%list
                  _ eq_refl)).
Defined.

(** * Further properties of the handlers *)

(** ** One statement, after validation *)

Lemma run_cases nameRegex w m :
  let '(out, tr) := run (handler nameRegex m) w in
  (exists issues, validation nameRegex m = Some issues /\ tr = []
                  /\ exists st, out = Returned (Some st)
                                /\ errors st = Some (fieldErrors issues))
  \/ (exists q e msg, validation nameRegex m = None
        /\ statement nameRegex w m = Some q
        /\ tr = [Sql q (inl e)]
        /\ out = Returned (Some {| errors := None; message := Some msg |}))
  \/ (exists q rows, validation nameRegex m = None
        /\ statement nameRegex w m = Some q
        /\ tr = (Sql q (inr rows) :: RevalidatePath (listing m)
                   :: if is_delete m then [] else [Redirect (listing m)])
        /\ out = if is_delete m then Returned None
                 else Raised (NextRedirect (listing m))).
Proof.
  pose proof (handler_run nameRegex w m) as HR.
  destruct (run (handler nameRegex m) w) as [out tr].
  inversion HR as [issues r Hv He | q e msg Hv Hq Ha Hp | q rows Hv Hq Ha]; subst.
  - left. exists issues. repeat split; trivial.
    destruct r as [st |]; [| discriminate]. exists st. split; [reflexivity | exact He].
  - right; left. exists q, e, msg. repeat split; assumption.
  - right; right. exists q, rows. repeat split; assumption.
Qed.

Lemma statement_is_own nameRegex w m q :
  statement nameRegex w m = Some q -> own_statement m q = true.
Proof.
  destruct m; cbn [statement];
    try destruct (customerSchema _ _ _ _); try destruct (CreateInvoice _ _ _);
    intros H; inversion H; reflexivity.
Qed.

(** X1. A call of a mutation handler executes at most one statement,
    and that statement is the handler's own: its verb on its table,
    never a statement of another handler or of a transaction.  A
    submission that fails validation has no effect at all, and it is the
    only kind of call without effect. *)
Theorem one_own_statement_per_call nameRegex w m :
  let tr := snd (run (handler nameRegex m) w) in
  (List.length (statements tr) <= 1)%nat
  /\ forallb (own_statement m) (statements tr) = true
  /\ (tr = [] <-> exists issues, validation nameRegex m = Some issues).
Proof.
  pose proof (run_cases nameRegex w m) as H.
  destruct (run (handler nameRegex m) w) as [out tr]. cbn [snd].
  destruct H as [(issues & Hv & -> & _) | [(q & e & msg & Hv & Hq & -> & _)
                                         | (q & rows & Hv & Hq & -> & _)]].
  - cbn. repeat split; auto. intros _. eauto.
  - cbn. rewrite (statement_is_own _ _ _ _ Hq). repeat split; auto.
    + discriminate.
    + intros (issues & Hi). congruence.
  - assert (Hs : statements (Sql q (inr rows) :: RevalidatePath (listing m)
                   :: (if is_delete m then [] else [Redirect (listing m)])) = [q])
      by (destruct (is_delete m); reflexivity).
    rewrite Hs. cbn. rewrite (statement_is_own _ _ _ _ Hq). repeat split; auto.
    + discriminate.
    + intros (issues & Hi). congruence.
Qed.

(** ** What a handler throws *)

(** X2. A mutation handler throws nothing but the redirect to its own
    listing, and only a create or update handler whose statement has
    succeeded does; in every other case it returns, and it returns
    [undefined] only from a delete whose statement has succeeded. *)
Theorem only_the_redirect_is_thrown nameRegex w m :
  let '(out, tr) := run (handler nameRegex m) w in
  match out with
  | Raised e =>
      e = NextRedirect (listing m) /\ is_delete m = false /\ persistence_succeeded tr
  | Returned None => is_delete m = true /\ persistence_succeeded tr
  | Returned (Some st) =>
      ~ persistence_succeeded tr
      /\ (is_delete m = true -> errors st = None)
  end.
Proof.
  pose proof (run_cases nameRegex w m) as H.
  destruct (run (handler nameRegex m) w) as [out tr].
  destruct H as [(issues & Hv & -> & st & -> & He) | [(q & e & msg & Hv & Hq & -> & ->)
                                         | (q & rows & Hv & Hq & -> & ->)]].
  - split.
    + intros (q & rows & []).
    + intros Hd. destruct m; cbn in Hd, Hv; discriminate.
  - split.
    + intros (q' & rows & [H | []]). discriminate.
    + reflexivity.
  - assert (Hs : persistence_succeeded
                   (Sql q (inr rows) :: RevalidatePath (listing m)
                      :: (if is_delete m then [] else [Redirect (listing m)]))).
    { exists q, rows. left. reflexivity. }
    destruct (is_delete m); repeat split; auto.
Qed.

Lemma only_the_redirect_is_thrown_witness :
  errors {| errors := None; message := Some "Database Error: Failed to delete" |} = None.
Proof.
  exact (proj2 (only_the_redirect_is_thrown example_nameRegex unreachable
                  (CallDeleteInvoice "7")) eq_refl).
Defined.

(** ** The error of the store stays inside *)

(** X3. What a mutation handler returns after a failed statement does
    not depend on the error of the store, nor on anything else in the
    world: two calls with the same arguments whose statements both fail
    return the same result. *)
Theorem store_error_is_not_disclosed nameRegex m w w' :
  persistence_failed (snd (run (handler nameRegex m) w)) ->
  persistence_failed (snd (run (handler nameRegex m) w')) ->
  fst (run (handler nameRegex m) w) = fst (run (handler nameRegex m) w').
Proof.
  destruct m as [prev fd | id prev fd | id | prev fd | id prev fd | id];
    cbn [handler];
    unfold run, createCustomer, updateCustomer, deleteCustomer,
           createInvoice, updateInvoice, deleteInvoice, UpdateInvoice.
  - destruct (customerSchema nameRegex _ _ _) as [d | issues];
      [two_answers | intros; reflexivity].
  - destruct (customerSchema nameRegex _ _ _) as [d | issues];
      [two_answers | intros; reflexivity].
  - two_answers.
  - destruct (CreateInvoice _ _ _) as [d | issues]; [two_answers | intros; reflexivity].
  - destruct (CreateInvoice _ _ _) as [d | issues]; [two_answers | intros; reflexivity].
  - two_answers.
Qed.

Lemma store_error_is_not_disclosed_witness :
  fst (run (updateInvoice "7" no_state (invoice_form "49.99")) unreachable)
  = fst (run (updateInvoice "7" no_state (invoice_form "49.99"))
           {| sql_answer := fun _ _ => inl (OtherError "deadlock detected");
              signIn_answer := fun _ _ => None;
              now := 0 |}).
Proof.
  refine (store_error_is_not_disclosed example_nameRegex
            (CallUpdateInvoice "7" no_state (invoice_form "49.99")) _ _ _ _);
    eexists _, _; left; reflexivity.
Defined.

(** ** The submissions that are accepted, and the rows they write *)

Lemma validation_statement nameRegex w m :
  (exists issues, validation nameRegex m = Some issues) <-> statement nameRegex w m = None.
Proof.
  destruct m; cbn [validation statement];
    try destruct (customerSchema _ _ _ _); try destruct (CreateInvoice _ _ _);
    split; try discriminate; try reflexivity; eauto;
    intros (issues & H); discriminate.
Qed.

Lemma statements_run nameRegex w m :
  statements (snd (run (handler nameRegex m) w))
  = match statement nameRegex w m with Some q => [q] | None => [] end.
Proof.
  pose proof (run_cases nameRegex w m) as H.
  destruct (run (handler nameRegex m) w) as [out tr]. cbn [snd].
  destruct H as [(issues & Hv & -> & _) | [(q & e & msg & Hv & Hq & -> & _)
                                         | (q & rows & Hv & Hq & -> & _)]].
  - rewrite (proj1 (validation_statement nameRegex w m)) by eauto. reflexivity.
  - rewrite Hq. reflexivity.
  - rewrite Hq. destruct (is_delete m); reflexivity.
Qed.

Lemma get_defined fd k : get fd k <> VUndefined.
Proof.
  induction fd as [| [k0 v0] fd IH]; cbn [get]; [discriminate |].
  destruct (String.eqb k0 k); [destruct v0; discriminate | exact IH].
Qed.

Lemma object3_success {A B C T} (mk : A -> B -> C -> T) k1 r1 k2 r2 k3 r3 t :
  object3 mk k1 r1 k2 r2 k3 r3 = Success t
  <-> exists a b c, r1 = Valid a /\ r2 = Valid b /\ r3 = Valid c /\ t = mk a b c.
Proof.
  unfold object3. split.
  - destruct r1, r2, r3; try discriminate. intros H. injection H as <-. eauto 10.
  - intros (a & b & c & -> & -> & -> & ->). reflexivity.
Qed.

Lemma customerSchema_name_valid nameRegex v x :
  customerSchema_name nameRegex v = Valid x
  <-> v = VString x /\ x <> EmptyString /\ nameRegex x = true.
Proof.
  unfold customerSchema_name, refine, min, check, z_string. split.
  - destruct v as [| | s |]; try discriminate.
    destruct s as [| c s]; cbn [String.length Nat.ltb Nat.leb negb].
    + destruct (nameRegex EmptyString); discriminate.
    + destruct (nameRegex (String c s)) eqn:E; [| discriminate].
      intros H. injection H as <-. repeat split; [discriminate | exact E].
  - intros (-> & Hx & Hr). destruct x as [| c s]; [contradiction |].
    cbn [String.length Nat.ltb Nat.leb negb]. rewrite Hr. reflexivity.
Qed.

Lemma customerSchema_email_valid v x :
  customerSchema_email v = Valid (Some x) <-> v = VString x.
Proof.
  unfold customerSchema_email, optional, z_string. split.
  - destruct v; try discriminate. intros H. now injection H as <-.
  - intros ->. reflexivity.
Qed.

Lemma customerSchema_url_valid v x :
  customerSchema_url v = Valid (Some x) <-> v = VString x /\ url_test x = true.
Proof.
  unfold customerSchema_url, optional, refine, check, z_string. split.
  - destruct v as [| | s |]; try discriminate.
    destruct (url_test s) eqn:E; [| discriminate].
    intros H. injection H as <-. split; [reflexivity | exact E].
  - intros (-> & ->). reflexivity.
Qed.

Lemma optional_of_get {T} (s : Schema T) fd k o :
  optional s (get fd k) = Valid o -> exists x, o = Some x.
Proof.
  unfold optional. pose proof (get_defined fd k) as Hd.
  destruct (get fd k); [contradiction | | |];
    (destruct (s _); try discriminate; intros H; injection H as <-; eauto).
Qed.

Lemma customer_statement_params nameRegex fd d e n u :
  customerSchema nameRegex (get fd "name") (get fd "email") (get fd "url") = Success d ->
  (param_of_optional (email d) = PString e /\ name d = n
   /\ param_of_optional (url d) = PString u
   <-> get fd "name" = VString n /\ n <> EmptyString /\ nameRegex n = true
       /\ get fd "email" = VString e
       /\ get fd "url" = VString u /\ url_test u = true).
Proof.
  intros Hp. apply object3_success in Hp.
  destruct Hp as (a & b & c & Ha & Hb & Hc & ->). cbn [email name url].
  destruct (optional_of_get _ _ _ _ Hb) as (e' & ->).
  destruct (optional_of_get _ _ _ _ Hc) as (u' & ->).
  apply customerSchema_name_valid in Ha. apply customerSchema_email_valid in Hb.
  apply customerSchema_url_valid in Hc. cbn [param_of_optional].
  destruct Ha as (Ha & Hne & Hr). destruct Hc as (Hc & Hu).
  split.
  - intros (He & <- & Hu'). injection He as <-. injection Hu' as <-. auto 10.
  - intros (Hn & _ & _ & He & Hu' & _).
    rewrite Hn in Ha. rewrite He in Hb. rewrite Hu' in Hc.
    injection Ha as <-. injection Hb as <-. injection Hc as <-. auto.
Qed.

Lemma customer_accepted nameRegex fd e n u :
  get fd "name" = VString n -> n <> EmptyString -> nameRegex n = true ->
  get fd "email" = VString e -> get fd "url" = VString u -> url_test u = true ->
  customerSchema nameRegex (get fd "name") (get fd "email") (get fd "url")
  = Success {| name := n; email := Some e; url := Some u |}.
Proof.
  intros Hn Hne Hr He Hu Ht. apply object3_success.
  exists n, (Some e), (Some u). repeat split.
  - apply customerSchema_name_valid. auto.
  - apply customerSchema_email_valid. auto.
  - apply customerSchema_url_valid. auto.
Qed.

(** X4. [createCustomer] inserts the row (e, n, u), and [updateCustomer]
    writes it, exactly when the form holds a name n that is a non-empty
    string accepted by [nameRegex], an email e that is a string, and a url
    u that is a string matching the URL pattern.  The three values are
    bound as submitted: nothing is trimmed or changed. *)
Theorem customer_row_written_iff nameRegex w id prevState fd e n u :
  let accepted :=
    get fd "name" = VString n /\ n <> EmptyString /\ nameRegex n = true
    /\ get fd "email" = VString e
    /\ get fd "url" = VString u /\ url_test u = true in
  (statements (snd (run (createCustomer nameRegex prevState fd) w))
   = [InsertIntoCustomers (PString e) (PString n) (PString u)] <-> accepted)
  /\ (statements (snd (run (updateCustomer nameRegex id prevState fd) w))
      = [UpdateCustomers (PString e) (PString n) (PString u) (PString e)] <-> accepted).
Proof.
  cbv zeta.
  change (createCustomer nameRegex prevState fd)
    with (handler nameRegex (CallCreateCustomer prevState fd)).
  change (updateCustomer nameRegex id prevState fd)
    with (handler nameRegex (CallUpdateCustomer id prevState fd)).
  rewrite !statements_run. cbn [statement].
  destruct (customerSchema nameRegex _ _ _) as [d | issues] eqn:Hp.
  - pose proof (customer_statement_params nameRegex fd d e n u Hp) as Hiff.
    unfold param_of_string. split; split.
    + intros H. injection H as H1 H2 H3. apply Hiff. auto.
    + intros H. apply Hiff in H. destruct H as (-> & -> & ->). reflexivity.
    + intros H. injection H as H1 H2 H3 H4. apply Hiff. auto.
    + intros H. apply Hiff in H. destruct H as (-> & -> & ->). reflexivity.
  - split; split; try discriminate;
      intros (Hn & Hne & Hr & He & Hu & Ht);
      rewrite (customer_accepted nameRegex fd e n u Hn Hne Hr He Hu Ht) in Hp;
      discriminate.
Qed.

Lemma InvoiceSchema_customerId_valid v x :
  InvoiceSchema_customerId v = Valid x <-> v = VString x.
Proof.
  unfold InvoiceSchema_customerId, z_string. split.
  - destruct v; try discriminate. intros H. now injection H as <-.
  - intros ->. reflexivity.
Qed.

Lemma InvoiceSchema_amount_valid v x :
  InvoiceSchema_amount v = Valid x
  <-> x = ToNumber v /\ gtb (ToNumber v) (of_Z 0) = true.
Proof.
  unfold InvoiceSchema_amount, gt, check, z_coerce_number, gtb, leb.
  destruct (ToNumber v) as [s | s | | s m e]; cbn [isNaN]; try destruct s;
    cbn; split; try discriminate; try (intros [_ H]; discriminate H);
    try (intros H; injection H as <-; split; reflexivity);
    try (intros [-> _]; reflexivity).
Qed.

Lemma InvoiceSchema_status_valid v x :
  InvoiceSchema_status v = Valid x
  <-> v = VString x /\ (x = "pending" \/ x = "paid").
Proof.
  unfold InvoiceSchema_status, z_enum. split.
  - destruct v as [| | s |]; try discriminate. cbn [existsb].
    destruct (String.eqb_spec s "pending") as [-> | _].
    + intros H. injection H as <-. auto.
    + destruct (String.eqb_spec s "paid") as [-> | _]; [| discriminate].
      intros H. injection H as <-. auto.
  - intros (-> & [-> | ->]); reflexivity.
Qed.

Lemma invoice_data_iff fd d :
  CreateInvoice (get fd "customerId") (get fd "amount") (get fd "status") = Success d
  <-> get fd "customerId" = VString (customerId d)
      /\ amount d = ToNumber (get fd "amount")
      /\ gtb (ToNumber (get fd "amount")) (of_Z 0) = true
      /\ get fd "status" = VString (Actions.status d)
      /\ (Actions.status d = "pending" \/ Actions.status d = "paid").
Proof.
  unfold CreateInvoice. rewrite object3_success. split.
  - intros (a & b & c & Ha & Hb & Hc & ->). cbn [customerId amount Actions.status].
    apply InvoiceSchema_customerId_valid in Ha.
    apply InvoiceSchema_amount_valid in Hb.
    apply InvoiceSchema_status_valid in Hc. tauto.
  - intros (Ha & Hb & Hg & Hc & Hs). destruct d as [c x s]. cbn in *.
    exists c, x, s. repeat split.
    + now apply InvoiceSchema_customerId_valid.
    + apply InvoiceSchema_amount_valid. auto.
    + apply InvoiceSchema_status_valid. auto.
Qed.

(** X5. [createInvoice] inserts, and [updateInvoice] writes, a row
    exactly when the customer id is a string (any string, the empty one
    included), the amount coerces to a number above 0 and the status is
    "pending" or "paid".  The row then holds the customer id and the
    status as submitted and the product of the coerced amount and 100;
    the INSERT adds the date of the server's clock, the UPDATE is bound to
    the [id] argument. *)
Theorem invoice_row_written_iff w id prevState fd c x s k :
  let accepted :=
    get fd "customerId" = VString c
    /\ gtb (ToNumber (get fd "amount")) (of_Z 0) = true
    /\ x = mul (ToNumber (get fd "amount")) (of_Z 100)
    /\ get fd "status" = VString s /\ (s = "pending" \/ s = "paid") in
  (statements (snd (run (createInvoice prevState fd) w))
   = [InsertIntoInvoices (PString c) (PNumber x) (PString s) (PString k)]
   <-> accepted /\ k = iso_date (now w))
  /\ (statements (snd (run (updateInvoice id prevState fd) w))
      = [UpdateInvoices (PString c) (PNumber x) (PString s) (PString k)]
      <-> accepted /\ k = id).
Proof.
  cbv zeta.
  change (createInvoice prevState fd)
    with (handler (fun _ => true) (CallCreateInvoice prevState fd)).
  change (updateInvoice id prevState fd)
    with (handler (fun _ => true) (CallUpdateInvoice id prevState fd)).
  rewrite !statements_run. cbn [statement]. rewrite date_part_of_toISOString.
  destruct (CreateInvoice _ _ _) as [d | issues] eqn:Hp.
  - apply invoice_data_iff in Hp. destruct Hp as (Ha & Hb & Hg & Hc & Hs).
    split; split.
    + intros H. injection H as <- <- <- <-. rewrite Hb. tauto.
    + intros ((Ha' & _ & -> & Hc' & _) & ->).
      rewrite Ha' in Ha. rewrite Hc' in Hc. injection Ha as <-. injection Hc as <-.
      rewrite Hb. reflexivity.
    + intros H. injection H as <- <- <- <-. rewrite Hb. tauto.
    + intros ((Ha' & _ & -> & Hc' & _) & ->).
      rewrite Ha' in Ha. rewrite Hc' in Hc. injection Ha as <-. injection Hc as <-.
      rewrite Hb. reflexivity.
  - split; split; try discriminate;
      intros ((Ha & Hg & _ & Hc & Hs) & _);
      (assert (Hok : CreateInvoice (get fd "customerId") (get fd "amount")
                       (get fd "status")
                     = Success {| customerId := c;
                                  amount := ToNumber (get fd "amount");
                                  Actions.status := s |})
         by (apply invoice_data_iff; cbn; auto));
      congruence.
Qed.

(** ** Fields that are rejected *)

Lemma validation_fields nameRegex m issues k ms :
  validation nameRegex m = Some issues ->
  In (k, ms) (field_messages nameRegex m) ->
  field k (fieldErrors issues) = present ms.
Proof.
  intros Hv Hin. rewrite field_fieldErrors.
  destruct m as [prev fd | id prev fd | id | prev fd | id prev fd | id];
    cbn [validation field_messages] in *; try discriminate.
  1,2: destruct (customerSchema nameRegex _ _ _) as [d | iss] eqn:Hp; [discriminate |];
       injection Hv as ->.
  3,4: destruct (CreateInvoice _ _ _) as [d | iss] eqn:Hp; [discriminate |];
       injection Hv as ->.
  all: rewrite (object3_field_errors _ _ _ _ _ _ _ _ Hp k);
       destruct Hin as [H | [H | [H | []]]]; injection H as <- <-; cbn;
       rewrite ?app_nil_r; reflexivity.
Qed.

Lemma object3_rejects {A B C T} (mk : A -> B -> C -> T) k1 r1 k2 r2 k3 r3 :
  messages r1 <> [] \/ messages r2 <> [] \/ messages r3 <> [] ->
  exists issues, object3 mk k1 r1 k2 r2 k3 r3 = Failure issues.
Proof.
  unfold object3. intros H.
  destruct r1, r2, r3; cbn [messages] in H; eauto; exfalso; tauto.
Qed.

(** A field whose schema complains makes the call return the complaints
    under the name of the field, with no effect. *)
Lemma rejected_field nameRegex w m k ms :
  In (k, ms) (field_messages nameRegex m) -> ms <> [] ->
  snd (run (handler nameRegex m) w) = []
  /\ field k (returned_errors (fst (run (handler nameRegex m) w))) = Some ms.
Proof.
  intros Hin Hne.
  assert (Hv : exists issues, validation nameRegex m = Some issues).
  { destruct m as [prev fd | id prev fd | id | prev fd | id prev fd | id];
      cbn [validation field_messages] in *; try contradiction.
    1,2: unfold customerSchema;
         edestruct (object3_rejects Build_CustomerData) as (issues & ->); eauto;
         destruct Hin as [H | [H | [H | []]]]; injection H as <- <-; tauto.
    all: unfold CreateInvoice;
         edestruct (object3_rejects Build_InvoiceData) as (issues & ->); eauto;
         destruct Hin as [H | [H | [H | []]]]; injection H as <- <-; tauto. }
  destruct Hv as (issues & Hv).
  pose proof (run_cases nameRegex w m) as H.
  destruct (run (handler nameRegex m) w) as [out tr]. cbn [fst snd].
  destruct H as [(issues' & Hv' & -> & st & -> & He) | [(q & e & msg & Hv' & _)
                                                     | (q & rows & Hv' & _)]];
    try congruence.
  split; [reflexivity |]. cbn [returned_errors]. rewrite He.
  assert (issues' = issues) as -> by congruence.
  rewrite (validation_fields _ _ _ _ _ Hv Hin). destruct ms; [contradiction | reflexivity].
Qed.

(** X6. Every field is required and has to be text: a create or update
    submission in which one of the fields of the form is absent, or is a
    file, is refused with an error under the name of that field, and
    executes nothing. *)
Theorem absent_or_file_field_rejected nameRegex w m k :
  In k (form_fields m) ->
  submitted m k = VNull \/ (exists f, submitted m k = VFile f) ->
  snd (run (handler nameRegex m) w) = []
  /\ exists ms, ms <> []
       /\ field k (returned_errors (fst (run (handler nameRegex m) w))) = Some ms.
Proof.
  intros Hk Hs.
  assert (H : exists ms, In (k, ms) (field_messages nameRegex m) /\ ms <> []).
  { destruct m as [prev fd | id prev fd | id | prev fd | id prev fd | id];
      cbn [form_fields field_messages submitted] in *; try contradiction;
      destruct Hk as [<- | [<- | [<- | []]]];
      destruct Hs as [-> | (f & ->)];
      eexists; (split; [cbn; eauto |]); cbn; discriminate. }
  destruct H as (ms & Hin & Hne).
  destruct (rejected_field nameRegex w m k ms Hin Hne) as (Ht & Hf).
  split; [exact Ht |]. exists ms. split; assumption.
Qed.

Lemma absent_or_file_field_rejected_witness :
  snd (run (createInvoice no_state [("customerId", EntryString "123");
                                    ("amount", EntryString "5");
                                    ("status", EntryFile "status.txt")]) healthy) = [].
Proof.
  refine (proj1 (absent_or_file_field_rejected example_nameRegex healthy
                   (CallCreateInvoice no_state [("customerId", EntryString "123");
                                                ("amount", EntryString "5");
                                                ("status", EntryFile "status.txt")])
                   "status" _ _)).
  - right; right; left. reflexivity.
  - right. eexists. reflexivity.
Defined.

(** ** Amounts that are not above 0 *)

Lemma drop_spaces_blank l : forallb is_space l = true -> drop_spaces l = [].
Proof.
  induction l as [| c l IH]; cbn [forallb drop_spaces]; [reflexivity |].
  destruct (is_space c); [exact IH | discriminate].
Qed.

Lemma StringToNumber_blank s :
  forallb is_space (chars s) = true -> StringToNumber s = pos_zero.
Proof.
  intros H. unfold StringToNumber, trim. rewrite (drop_spaces_blank _ H). reflexivity.
Qed.

(** Rounding keeps the sign it is given. *)
Lemma binary_round_aux_sign sx mx ex lx :
  let r := binary_round_aux prec emax sx mx ex lx in
  r = S754_nan \/ r = S754_zero sx \/ r = S754_infinity sx
  \/ exists m e, r = S754_finite sx m e.
Proof.
  cbv zeta. unfold binary_round_aux.
  destruct (shr_fexp prec emax mx ex lx) as [mrs' e'].
  destruct (shr_fexp prec emax _ e' loc_Exact) as [mrs'' e''].
  destruct (shr_m mrs'') as [| m | m]; auto.
  destruct (e'' <=? emax - prec); eauto 10.
Qed.

Lemma not_above_zero_gtb x : not_above_zero x -> gtb x (of_Z 0) = false.
Proof. intros [-> | [-> | [-> | (m & e & ->)]]]; reflexivity. Qed.

Lemma of_decimal_negative m e : not_above_zero (of_decimal true m e).
Proof.
  unfold of_decimal, not_above_zero. destruct m as [| p | p]; auto.
  destruct (0 <=? e) eqn:He.
  - assert (Hpos : 0 < 10 ^ e) by (apply Z.pow_pos_nonneg; lia).
    unfold binary_normalize.
    destruct (Z.neg p * 10 ^ e) as [| q | q] eqn:Hq; [auto | lia |].
    unfold binary_round.
    destruct (shl_align q 0 _) as [mz ez].
    destruct (binary_round_aux_sign true (Z.pos mz) ez loc_Exact) as [H | [H | [H | H]]];
      auto.
  - destruct (SFdiv_core_binary prec emax (Z.pos p) 0 (10 ^ (- e)) 0) as [[q e'] l].
    destruct (binary_round_aux_sign true q e' l) as [H | [H | [H | H]]]; auto.
Qed.

Lemma drop_spaces_keeps_last l c :
  is_space c = false -> exists l', drop_spaces (l ++ [c]) = (l' ++ [c])%list.
Proof.
  intros Hc. induction l as [| x l IH]; cbn [app drop_spaces].
  - rewrite Hc. exists []. reflexivity.
  - destruct (is_space x); [exact IH |]. exists (x :: l). reflexivity.
Qed.

Lemma StringToNumber_minus s : not_above_zero (StringToNumber (String "-" s)).
Proof.
  unfold StringToNumber, trim. cbn [chars list_ascii_of_string drop_spaces].
  change (is_space "-") with false. cbv iota. cbn [rev].
  destruct (drop_spaces_keeps_last (rev (list_ascii_of_string s)) "-" eq_refl)
    as (l' & ->).
  rewrite rev_app_distr. cbn [rev app].
  unfold str_decimal. destruct (String.eqb _ "Infinity").
  - right; right; left. reflexivity.
  - unfold unsigned_decimal.
    destruct (span is_digit (rev l')) as [ip r1].
    destruct (match r1 with
              | "."%char :: r => span is_digit r
              | _ => ([], r1)
              end) as [fp r2].
    destruct (ip ++ fp)%list; [left; reflexivity |].
    destruct (digits_from 10 0 _); [| left; reflexivity].
    destruct (exponent_part r2); [| left; reflexivity].
    apply of_decimal_negative.
Qed.

Lemma amount_messages_cases v :
  gtb (ToNumber v) (of_Z 0) = false ->
  messages (InvoiceSchema_amount v) = ["Please enter an amount greater than $0."]
  \/ messages (InvoiceSchema_amount v) = ["Expected number, received nan"].
Proof.
  intros H. destruct (isNaN (ToNumber v)) eqn:En.
  - right. apply amount_not_a_number, En.
  - left. apply amount_not_positive.
    unfold gtb, leb in *. destruct (ToNumber v) as [s | s | | s m e];
      try destruct s; try discriminate; reflexivity.
Qed.

(** X7. An amount that is absent, empty or made of white space only
    coerces to 0: [createInvoice] and [updateInvoice] refuse it with the
    message of the bound, and execute nothing. *)
Theorem blank_amount_rejected w id prevState fd :
  absent "amount" fd
  \/ (exists s, get fd "amount" = VString s /\ forallb is_space (chars s) = true) ->
  let refused (r : Outcome (option State) * list Event) :=
    snd r = []
    /\ field "amount" (returned_errors (fst r))
       = Some ["Please enter an amount greater than $0."] in
  refused (run (createInvoice prevState fd) w)
  /\ refused (run (updateInvoice id prevState fd) w).
Proof.
  intros H. cbv zeta.
  assert (Hz : ToNumber (get fd "amount") = pos_zero).
  { destruct H as [Ha | (s & -> & Hb)].
    - rewrite (get_absent _ _ Ha). reflexivity.
    - apply StringToNumber_blank, Hb. }
  assert (Hm : messages (InvoiceSchema_amount (get fd "amount"))
               = ["Please enter an amount greater than $0."]).
  { apply amount_not_positive. rewrite Hz. reflexivity. }
  split.
  - apply (rejected_field (fun _ => true) w (CallCreateInvoice prevState fd) "amount").
    + cbn [field_messages]. rewrite Hm. right; left. reflexivity.
    + discriminate.
  - apply (rejected_field (fun _ => true) w (CallUpdateInvoice id prevState fd) "amount").
    + cbn [field_messages]. rewrite Hm. right; left. reflexivity.
    + discriminate.
Qed.

Lemma blank_amount_rejected_witness :
  field "amount"
    (returned_errors (fst (run (createInvoice no_state (invoice_form "  ")) healthy)))
  = Some ["Please enter an amount greater than $0."].
Proof.
  refine (proj2 (proj1 (blank_amount_rejected healthy "7" no_state (invoice_form "  ") _))).
  right. exists "  ". split; reflexivity.
Defined.

(** X8. No amount written with a leading minus sign is accepted,
    whatever follows the sign: [createInvoice] and [updateInvoice] refuse
    it under [amount], with the message of the bound when it is a number
    and with the message of the type when it is none, and execute
    nothing. *)
Theorem negative_amount_rejected w id prevState fd s :
  get fd "amount" = VString (String "-" s) ->
  let refused (r : Outcome (option State) * list Event) :=
    snd r = []
    /\ (field "amount" (returned_errors (fst r))
        = Some ["Please enter an amount greater than $0."]
        \/ field "amount" (returned_errors (fst r))
           = Some ["Expected number, received nan"]) in
  refused (run (createInvoice prevState fd) w)
  /\ refused (run (updateInvoice id prevState fd) w).
Proof.
  intros H. cbv zeta.
  assert (Hg : gtb (ToNumber (get fd "amount")) (of_Z 0) = false).
  { rewrite H. apply not_above_zero_gtb, StringToNumber_minus. }
  destruct (amount_messages_cases _ Hg) as [Hm | Hm].
  - split.
    + destruct (rejected_field (fun _ => true) w (CallCreateInvoice prevState fd)
                  "amount" _ ltac:(cbn [field_messages]; right; left; reflexivity)) as (Ht & Hf).
      * rewrite Hm. discriminate.
      * split; [exact Ht |]. left. rewrite <- Hm. exact Hf.
    + destruct (rejected_field (fun _ => true) w (CallUpdateInvoice id prevState fd)
                  "amount" _ ltac:(cbn [field_messages]; right; left; reflexivity)) as (Ht & Hf).
      * rewrite Hm. discriminate.
      * split; [exact Ht |]. left. rewrite <- Hm. exact Hf.
  - split.
    + destruct (rejected_field (fun _ => true) w (CallCreateInvoice prevState fd)
                  "amount" _ ltac:(cbn [field_messages]; right; left; reflexivity)) as (Ht & Hf).
      * rewrite Hm. discriminate.
      * split; [exact Ht |]. right. rewrite <- Hm. exact Hf.
    + destruct (rejected_field (fun _ => true) w (CallUpdateInvoice id prevState fd)
                  "amount" _ ltac:(cbn [field_messages]; right; left; reflexivity)) as (Ht & Hf).
      * rewrite Hm. discriminate.
      * split; [exact Ht |]. right. rewrite <- Hm. exact Hf.
Qed.

Lemma negative_amount_rejected_witness :
  snd (run (updateInvoice "7" no_state (invoice_form "-49.99")) healthy) = [].
Proof.
  exact (proj1 (proj2 (negative_amount_rejected healthy "7" no_state
                         (invoice_form "-49.99") "49.99" eq_refl))).
Defined.

(** ** The amount that is written *)

Lemma shr_1_nonneg mrs : 0 <= shr_m mrs -> 0 <= shr_m (shr_1 mrs).
Proof.
  destruct mrs as [m r s]. cbn [shr_m]. intros H.
  destruct m as [| p | p]; [cbn; lia | | lia].
  destruct p; cbn; lia.
Qed.

Lemma iter_pos_shr_1_nonneg p mrs :
  0 <= shr_m mrs -> 0 <= shr_m (iter_pos shr_1 p mrs).
Proof.
  revert mrs. induction p as [p IH | p IH |]; intros mrs H; cbn [iter_pos].
  - apply IH, IH, shr_1_nonneg, H.
  - apply IH, IH, H.
  - apply shr_1_nonneg, H.
Qed.

Lemma shr_fexp_nonneg m e l :
  0 <= m -> 0 <= shr_m (fst (shr_fexp prec emax m e l)).
Proof.
  intros H. unfold shr_fexp, shr.
  assert (H0 : 0 <= shr_m (shr_record_of_loc m l)).
  { destruct l as [| []]; exact H. }
  destruct (fexp prec emax (Zdigits2 m + e) - e); cbn [fst]; auto.
  apply iter_pos_shr_1_nonneg, H0.
Qed.

Lemma round_nearest_even_nonneg m l : 0 <= m -> 0 <= round_nearest_even m l.
Proof.
  intros H. unfold round_nearest_even.
  destruct l as [| []]; try lia. destruct (Z.even m); lia.
Qed.

(** Rounding what is not negative never gives NaN. *)
Lemma binary_round_aux_nonneg mx ex lx :
  0 <= mx -> leb (of_Z 0) (binary_round_aux prec emax false mx ex lx) = true.
Proof.
  intros H. unfold binary_round_aux.
  pose proof (shr_fexp_nonneg mx ex lx H) as H1.
  destruct (shr_fexp prec emax mx ex lx) as [mrs' e']. cbn [fst] in H1.
  pose proof (shr_fexp_nonneg _ e' loc_Exact
                (round_nearest_even_nonneg _ (loc_of_shr_record mrs') H1)) as H2.
  destruct (shr_fexp prec emax _ e' loc_Exact) as [mrs'' e'']. cbn [fst] in H2.
  destruct (shr_m mrs'') as [| m | m]; [reflexivity | | lia].
  destruct (e'' <=? emax - prec); reflexivity.
Qed.

Lemma product_of_positive_amount x :
  gtb x (of_Z 0) = true -> leb (of_Z 0) (mul x (of_Z 100)) = true.
Proof.
  intros H. change (of_Z 100) with (S754_finite false 7036874417766400 (-46)).
  destruct x as [s | s | | s m e]; try destruct s; try discriminate H.
  - reflexivity.
  - unfold mul, SFmul. cbn [xorb]. apply binary_round_aux_nonneg. lia.
Qed.

(** X9. The amount that [createInvoice] and [updateInvoice] bind is
    never NaN and never negative: whenever one of them executes its
    statement, the amount of that statement is a number that is at least
    0. *)
Theorem written_amount_not_negative w id prevState fd q :
  In q (statements (snd (run (createInvoice prevState fd) w)))
  \/ In q (statements (snd (run (updateInvoice id prevState fd) w))) ->
  exists x, persisted_amount q = Some (PNumber x) /\ leb (of_Z 0) x = true.
Proof.
  change (createInvoice prevState fd)
    with (handler (fun _ => true) (CallCreateInvoice prevState fd)).
  change (updateInvoice id prevState fd)
    with (handler (fun _ => true) (CallUpdateInvoice id prevState fd)).
  rewrite !statements_run. cbn [statement].
  destruct (CreateInvoice _ _ _) as [d | issues] eqn:Hp; [| intros [[] | []]].
  apply invoice_data_iff in Hp. destruct Hp as (_ & Hb & Hg & _).
  rewrite <- Hb in Hg.
  intros [[<- | []] | [<- | []]]; eexists; (split; [reflexivity |]);
    apply product_of_positive_amount, Hg.
Qed.

Lemma written_amount_not_negative_witness :
  exists x, Some (PNumber (mul (StringToNumber "Infinity") (of_Z 100))) = Some (PNumber x)
            /\ leb (of_Z 0) x = true.
Proof.
  refine (written_amount_not_negative healthy "7" no_state (invoice_form "Infinity")
            (UpdateInvoices (PString "123")
               (PNumber (mul (StringToNumber "Infinity") (of_Z 100)))
               (PString "pending") (PString "7")) _).
  right. left. reflexivity.
Defined.

(** ** The shape of the field errors *)

Lemma add_error_keys k msg fe :
  map fst (add_error k msg fe)
  = if existsb (String.eqb k) (map fst fe) then map fst fe
    else (map fst fe ++ [k])%list.
Proof.
  induction fe as [| [k0 ms0] fe IH]; cbn [add_error map fst existsb]; [reflexivity |].
  destruct (String.eqb k k0); cbn [orb map fst]; [reflexivity |].
  rewrite IH. destruct (existsb _ _); reflexivity.
Qed.

Lemma add_error_NoDup k msg fe :
  NoDup (map fst fe) -> NoDup (map fst (add_error k msg fe)).
Proof.
  intros H. rewrite add_error_keys.
  destruct (existsb (String.eqb k) (map fst fe)) eqn:E; [exact H |].
  apply NoDup_app; [exact H | constructor; [intros [] | constructor] |].
  intros x Hx [Hk | []]. subst x.
  assert (existsb (String.eqb k) (map fst fe) = true); [| congruence].
  apply existsb_exists. exists k. split; [exact Hx | apply String.eqb_refl].
Qed.

Lemma fieldErrors_NoDup issues : NoDup (map fst (fieldErrors issues)).
Proof.
  unfold fieldErrors.
  assert (H : forall fe, NoDup (map fst fe) ->
                NoDup (map fst (fold_left
                  (fun fe i => add_error (issue_path i) (issue_message i) fe) issues fe))).
  { induction issues as [| i issues IH]; intros fe Hfe; cbn [fold_left]; [exact Hfe |].
    apply IH, add_error_NoDup, Hfe. }
  apply H. constructor.
Qed.

Lemma field_of_entry k ms fe :
  NoDup (map fst fe) -> In (k, ms) fe -> field k fe = Some ms.
Proof.
  induction fe as [| [k0 ms0] fe IH]; cbn [map fst field]; intros Hn Hin; [destruct Hin |].
  inversion Hn as [| ? ? Hnot Hn']; subst.
  destruct Hin as [H | H].
  - injection H as -> ->. rewrite String.eqb_refl. reflexivity.
  - destruct (String.eqb_spec k k0) as [-> | _]; [| exact (IH Hn' H)].
    exfalso. apply Hnot. apply (in_map fst) in H. exact H.
Qed.

(** X10. The [errors] that a handler returns are never empty; they
    name no field twice, only fields of the submitted form (never [id] or
    [date]), and hold at least one message for each field they name. *)
Theorem returned_errors_shape nameRegex w m st fe :
  fst (run (handler nameRegex m) w) = Returned (Some st) ->
  errors st = Some fe ->
  fe <> []
  /\ NoDup (map fst fe)
  /\ forall k ms, In (k, ms) fe -> In k (form_fields m) /\ ms <> [].
Proof.
  intros Hout He.
  pose proof (run_cases nameRegex w m) as H.
  destruct (run (handler nameRegex m) w) as [out tr]. cbn [fst] in Hout. subst out.
  destruct H as [(issues & Hv & -> & st' & Hst & He') | [(q & e & msg & Hv & _ & _ & Hst)
                                                       | (q & rows & Hv & _ & _ & Hst)]].
  - injection Hst as <-. assert (fe = fieldErrors issues) as -> by congruence. clear He He'.
    assert (Hentry : forall k ms, In (k, ms) (fieldErrors issues) ->
                       messages_at k issues = ms /\ ms <> []).
    { intros k ms Hin.
      pose proof (field_of_entry _ _ _ (fieldErrors_NoDup issues) Hin) as Hf.
      rewrite field_fieldErrors in Hf. unfold present in Hf.
      destruct (messages_at k issues); [discriminate |].
      injection Hf as <-. split; [reflexivity | discriminate]. }
    split; [| split; [apply fieldErrors_NoDup |]].
    + assert (Hc : exists k ms, In (k, ms) (field_messages nameRegex m) /\ ms <> []).
      { destruct m as [prev fd | id prev fd | id | prev fd | id prev fd | id];
          cbn [validation field_messages] in *; try discriminate.
        1,2: destruct (customerSchema nameRegex _ _ _) as [d | iss] eqn:Hp;
             [discriminate |];
             destruct (customer_fields_complain nameRegex) as (C1 & C2 & C3).
        3,4: destruct (CreateInvoice _ _ _) as [d | iss] eqn:Hp; [discriminate |];
             destruct invoice_fields_complain as (C1 & C2 & C3).
        all: destruct (object3_failure _ _ _ _ _ _ _ _ Hp) as [H | [H | H]];
          [ eexists _, _; split; [left; reflexivity
                                 | exact (not_valid_complains _ _ C1 H)]
          | eexists _, _; split; [right; left; reflexivity
                                 | exact (not_valid_complains _ _ C2 H)]
          | eexists _, _; split; [right; right; left; reflexivity
                                 | exact (not_valid_complains _ _ C3 H)] ]. }
      destruct Hc as (k & ms & Hin & Hne).
      pose proof (validation_fields _ _ _ _ _ Hv Hin) as Hf.
      intros E. rewrite E in Hf. destruct ms; [contradiction | discriminate].
    + intros k ms Hin. destruct (Hentry k ms Hin) as (Hm & Hne).
      split; [| exact Hne].
      destruct m as [prev fd | id prev fd | id | prev fd | id prev fd | id];
        cbn [validation form_fields] in *; try discriminate.
      1,2: destruct (customerSchema nameRegex _ _ _) as [d | iss] eqn:Hp;
           [discriminate |]; injection Hv as ->.
      3,4: destruct (CreateInvoice _ _ _) as [d | iss] eqn:Hp; [discriminate |];
           injection Hv as ->.
      all: rewrite (object3_field_errors _ _ _ _ _ _ _ _ Hp k) in Hm;
           repeat match goal with
                  | H : context [String.eqb ?a ?b] |- _ =>
                      destruct (String.eqb_spec a b); [subst; cbn; auto |]
                  end;
           cbn in Hm; subst ms; contradiction.
  - injection Hst as ->. cbn in He. discriminate.
  - destruct (is_delete m); discriminate.
Qed.

Lemma returned_errors_shape_witness :
  NoDup (map fst [("customerId", ["Please select a customer."]);
                  ("amount", ["Please enter an amount greater than $0."]);
                  ("status", ["Please select an invoice status."])]).
Proof.
  exact (proj1 (proj2 (returned_errors_shape example_nameRegex healthy
                         (CallCreateInvoice no_state []) _ _ eq_refl eq_refl))).
Defined.

(** ** What the diagnostic route executes and logs *)

Lemma statements_app tr1 tr2 :
  statements (tr1 ++ tr2) = (statements tr1 ++ statements tr2)%list.
Proof.
  induction tr1 as [| ev tr1 IH]; [reflexivity |].
  destruct ev; cbn [app statements]; rewrite ?IH; reflexivity.
Qed.

Lemma logged_app tr1 tr2 : logged (tr1 ++ tr2) = (logged tr1 ++ logged tr2)%list.
Proof.
  induction tr1 as [| ev tr1 IH]; [reflexivity |].
  destruct ev; cbn [app logged]; rewrite ?IH; reflexivity.
Qed.

Lemma rows_read_app tr1 tr2 :
  rows_read (tr1 ++ tr2) = (rows_read tr1 ++ rows_read tr2)%list.
Proof.
  induction tr1 as [| ev tr1 IH]; [reflexivity |].
  destruct ev as [q a | | | |]; cbn [app rows_read]; rewrite ?IH; try reflexivity.
  destruct q, a; rewrite ?IH, ?app_assoc; reflexivity.
Qed.

Lemma console_log_events rows :
  statements (map ConsoleLog rows) = []
  /\ logged (map ConsoleLog rows) = rows
  /\ rows_read (map ConsoleLog rows) = [].
Proof.
  induction rows as [| r rows (IH1 & IH2 & IH3)]; cbn; [auto |].
  rewrite IH2. auto.
Qed.

(** X11. [GET] executes one of four sequences of statements and no
    other: BEGIN, SELECT, COMMIT; or BEGIN, SELECT, COMMIT and ROLLBACK
    after a failed COMMIT; or BEGIN, SELECT and ROLLBACK; or BEGIN and
    ROLLBACK.  What it writes to the console is exactly the rows that its
    read returned, each once and in their order; without a successful
    read it logs nothing. *)
Theorem GET_statements_and_log w :
  let tr := snd (run GET w) in
  In (statements tr)
     [[Begin; SelectRevenue; Commit];
      [Begin; SelectRevenue; Commit; Rollback];
      [Begin; SelectRevenue; Rollback];
      [Begin; Rollback]]
  /\ logged tr = rows_read tr.
Proof.
  cbv zeta. rewrite GET_run. unfold rollback.
  destruct (sql_answer w [] Begin) as [e | r0].
  - cbn. split; [tauto | reflexivity].
  - cbv zeta.
    destruct (sql_answer w [Sql Begin (inr r0)] SelectRevenue) as [e | rows].
    + cbn. split; [tauto | reflexivity].
    + destruct (console_log_events rows) as (Hs & Hl & Hr).
      destruct (sql_answer w _ Commit) as [e | r2]; cbn [snd];
        rewrite !statements_app, !logged_app, !rows_read_app, ?Hs, ?Hl, ?Hr;
        cbn; rewrite ?app_nil_r; (split; [tauto | reflexivity]).
Qed.

(** ** The date stamp *)

Lemma calendar_of_day t1 t2 :
  Day t1 = Day t2 ->
  YearFromTime t1 = YearFromTime t2
  /\ MonthFromTime t1 = MonthFromTime t2
  /\ DateFromTime t1 = DateFromTime t2.
Proof.
  intros H.
  assert (Hy : YearFromTime t1 = YearFromTime t2) by (unfold YearFromTime; now rewrite H).
  assert (Hl : InLeapYear t1 = InLeapYear t2) by (unfold InLeapYear; now rewrite Hy).
  assert (Hw : DayWithinYear t1 = DayWithinYear t2)
    by (unfold DayWithinYear; now rewrite H, Hy).
  assert (Hm : MonthFromTime t1 = MonthFromTime t2)
    by (unfold MonthFromTime; now rewrite Hw, Hl).
  repeat split; [exact Hy | exact Hm |].
  unfold DateFromTime. now rewrite Hm, Hw, Hl.
Qed.

Lemma append_inj_length a a' b b' :
  String.length a = String.length a' -> a ++ b = a' ++ b' -> a = a' /\ b = b'.
Proof.
  revert a'. induction a as [| c a IH]; intros [| c' a'] Hl H; cbn in *;
    try discriminate.
  - auto.
  - injection H as -> H. injection Hl as Hl.
    destruct (IH a' Hl H) as (-> & ->). auto.
Qed.

Lemma padded_inj n z z' :
  0 <= z < 10 ^ Z.of_nat n -> 0 <= z' < 10 ^ Z.of_nat n ->
  padded n z = padded n z' -> z = z'.
Proof.
  intros Hz Hz' H.
  pose proof (padded_denotes n z 0 Hz) as E. rewrite H, (padded_denotes n z' 0 Hz') in E.
  injection E as E. lia.
Qed.

(** X12. The date that [createInvoice] takes from the clock identifies
    the UTC day and nothing more: for clocks in the years 0 to 9999, two
    instants give the same date exactly when they lie on the same UTC
    day. *)
Theorem same_date_iff_same_day t1 t2 :
  0 <= YearFromTime t1 <= 9999 -> 0 <= YearFromTime t2 <= 9999 ->
  (hd EmptyString (split "T" (toISOString t1))
   = hd EmptyString (split "T" (toISOString t2))
   <-> Day t1 = Day t2).
Proof.
  intros H1 H2. rewrite !date_part_of_toISOString. split.
  - intros E. unfold iso_date, year_string in E.
    destruct (Z.leb_spec 0 (YearFromTime t1)); [| lia].
    destruct (Z.leb_spec (YearFromTime t1) 9999); [| lia].
    destruct (Z.leb_spec 0 (YearFromTime t2)); [| lia].
    destruct (Z.leb_spec (YearFromTime t2) 9999); [| lia].
    cbn [andb] in E.
    destruct (calendar_date_of_day t1) as (Hm1 & Hd1 & Hday1).
    destruct (calendar_date_of_day t2) as (Hm2 & Hd2 & Hday2).
    apply append_inj_length in E; [| now rewrite !padded_length].
    destruct E as (Ey & E). apply padded_inj in Ey; [| cbn; lia | cbn; lia].
    apply (append_inj_length "-" "-") in E; [| reflexivity]. destruct E as (_ & E).
    apply append_inj_length in E; [| now rewrite !padded_length].
    destruct E as (Em & E). apply padded_inj in Em; [| cbn; lia | cbn; lia].
    apply (append_inj_length "-" "-") in E; [| reflexivity]. destruct E as (_ & Ed).
    apply padded_inj in Ed; [| cbn; lia | cbn; lia].
    assert (El : InLeapYear t1 = InLeapYear t2) by (unfold InLeapYear; now rewrite Ey).
    assert (Em' : MonthFromTime t1 = MonthFromTime t2) by lia.
    rewrite <- Hday1, <- Hday2, Ey, Em', Ed, El. reflexivity.
  - intros E. destruct (calendar_of_day t1 t2 E) as (Hy & Hm & Hd).
    unfold iso_date. now rewrite Hy, Hm, Hd.
Qed.

Lemma same_date_iff_same_day_witness :
  hd EmptyString (split "T" (toISOString 1762137600000))
  = hd EmptyString (split "T" (toISOString 1762214399999)).
Proof.
  refine (proj2 (same_date_iff_same_day 1762137600000 1762214399999 _ _) eq_refl);
    vm_compute; split; discriminate.
Defined.

(** ** Entries that are not read *)

Lemma get_app fd extra k :
  get fd k <> VNull -> get (fd ++ extra)%list k = get fd k.
Proof.
  induction fd as [| [k0 v0] fd IH]; cbn [app get]; [contradiction |].
  destruct (String.eqb k0 k); [reflexivity | exact IH].
Qed.

(** X13. Only the first entry of each field of the form is read: once
    a form has an entry for each of its fields, entries appended to it
    (second values of a field, or entries under other names such as [id]
    or [date]) change nothing of what the handler does. *)
Theorem appended_entries_ignored nameRegex w m extra :
  (forall k, In k (form_fields m) -> submitted m k <> VNull) ->
  run (handler nameRegex (with_appended extra m)) w = run (handler nameRegex m) w.
Proof.
  intros H.
  destruct m as [prev fd | id prev fd | id | prev fd | id prev fd | id];
    cbn [with_appended handler form_fields submitted] in *; try reflexivity;
    unfold createCustomer, updateCustomer, createInvoice, updateInvoice;
    rewrite !get_app by (apply H; cbn; auto); reflexivity.
Qed.

Lemma appended_entries_ignored_witness :
  run (createInvoice no_state
         (invoice_form "49.99" ++ [("amount", EntryString "0.01");
                                   ("date", EntryString "1999-12-31")])%list) healthy
  = run (createInvoice no_state (invoice_form "49.99")) healthy.
Proof.
  refine (appended_entries_ignored example_nameRegex healthy
            (CallCreateInvoice no_state (invoice_form "49.99")) _ _).
  intros k [<- | [<- | [<- | []]]]; discriminate.
Defined.

(** ** The urls that are accepted *)

Lemma after_scheme_inv l rest :
  after_scheme l = Some rest ->
  exists scheme,
    l = (scheme ++ rest)%list
    /\ (map to_lower scheme = chars "http://" \/ map to_lower scheme = chars "https://").
Proof.
  unfold after_scheme. intros H.
  do 7 (next_char H).
  - next_char H. cbn [skipn] in H. injection H as <-.
    eexists [_; _; _; _; _; _; _; _]. split; [reflexivity |]. right. cbn [map].
    repeat match goal with E : to_lower _ = _ |- _ => rewrite E; clear E end.
    reflexivity.
  - cbn [skipn] in H. injection H as <-.
    eexists [_; _; _; _; _; _; _]. split; [reflexivity |]. left. cbn [map].
    repeat match goal with E : to_lower _ = _ |- _ => rewrite E; clear E end.
    reflexivity.
Qed.

Lemma dot_and_letters_length l : dot_and_letters l = true -> (3 <= List.length l)%nat.
Proof.
  induction l as [| c l IH]; cbn [dot_and_letters]; [discriminate |].
  intros H. apply orb_true_iff in H. destruct H as [H | H].
  - apply andb_true_iff in H. destruct H as (_ & H).
    destruct l as [| a [| b l]]; try discriminate. cbn. lia.
  - apply andb_true_iff in H. destruct H as (_ & H). specialize (IH H). cbn. lia.
Qed.

Lemma line_terminator_is_space c : is_line_terminator c = true -> is_space c = true.
Proof.
  unfold is_line_terminator, is_space. intros H.
  apply orb_true_iff in H. rewrite !orb_true_iff, andb_true_iff, !Z.leb_le.
  destruct H as [H | H]; apply Z.eqb_eq in H; left; left; lia.
Qed.

Lemma str_app a b : str (a ++ b) = str a ++ str b.
Proof. unfold str. induction a as [| c a IH]; cbn; [reflexivity | now rewrite IH]. Qed.

(** X14. A url that the customer schema accepts starts with http:// or
    https://, in any letter case, and goes on with at least four
    characters, all on one line; what follows the scheme does not start
    with white space and has none from its third character on. *)
Theorem accepted_url_shape u :
  url_test u = true ->
  exists scheme rest,
    u = scheme ++ rest
    /\ (map to_lower (chars scheme) = chars "http://"
        \/ map to_lower (chars scheme) = chars "https://")
    /\ (4 <= String.length rest)%nat
    /\ (forall c, In c (chars rest) -> is_line_terminator c = false)
    /\ (forall n c, nth_error (chars rest) n = Some c -> n <> 1%nat -> is_space c = false).
Proof.
  unfold url_test. intros H.
  destruct (after_scheme (chars u)) as [rest |] eqn:Hs; [| discriminate].
  apply andb_true_iff in H. destruct H as (Hd & Hb).
  destruct (after_scheme_inv _ _ Hs) as (scheme & Hl & Hscheme).
  exists (str scheme), (str rest).
  assert (Hc : forall l, chars (str l) = l)
    by (intros l; apply list_ascii_of_string_of_list_ascii).
  rewrite !Hc.
  split; [| split; [exact Hscheme |]].
  { rewrite <- str_app, <- Hl. unfold str, chars.
    symmetry. apply string_of_list_ascii_of_string. }
  destruct rest as [| c1 [| c2 tail]]; try discriminate Hb.
  cbn [url_body] in Hb.
  apply andb_true_iff in Hb. destruct Hb as (Hb & Htail).
  apply andb_true_iff in Hb. destruct Hb as (H1 & H2).
  apply negb_true_iff in H1, H2.
  rewrite !orb_false_iff in H1. destruct H1 as ((((H1 & _) & Hdot) & _) & _).
  assert (Htl : forall c, In c tail -> is_space c = false).
  { intros c Hin. rewrite forallb_forall in Htail.
    apply negb_true_iff. apply Htail, Hin. }
  assert (Hnl : forall c, is_space c = false -> is_line_terminator c = false).
  { intros c Hsp. destruct (is_line_terminator c) eqn:E; [| reflexivity].
    apply line_terminator_is_space in E. congruence. }
  split; [| split].
  - rewrite <- chars_length, Hc.
    assert (Hd' : dot_and_letters (c2 :: tail) = true).
    { change (dot_and_letters (c1 :: c2 :: tail))
        with ((Ascii.eqb c1 "." && match c2 :: tail with
                                   | a :: b :: _ => is_letter a && is_letter b
                                   | _ => false
                                   end)
              || (negb (is_line_terminator c1) && dot_and_letters (c2 :: tail))) in Hd.
      rewrite Hdot in Hd. cbn [andb orb] in Hd.
      apply andb_true_iff in Hd. tauto. }
    apply dot_and_letters_length in Hd'. cbn [List.length] in *. lia.
  - intros c [<- | [<- | Hin]]; auto.
  - intros n c Hn Hne. destruct n as [| [| n]]; [| contradiction |].
    + injection Hn as <-. exact H1.
    + cbn [nth_error] in Hn. apply nth_error_In in Hn. auto.
Qed.

Lemma accepted_url_shape_witness :
  exists scheme rest,
    "HTTPS://x.com" = scheme ++ rest
    /\ (map to_lower (chars scheme) = chars "http://"
        \/ map to_lower (chars scheme) = chars "https://")
    /\ (4 <= String.length rest)%nat
    /\ (forall c, In c (chars rest) -> is_line_terminator c = false)
    /\ (forall n c, nth_error (chars rest) n = Some c -> n <> 1%nat -> is_space c = false).
Proof. exact (accepted_url_shape "HTTPS://x.com" eq_refl). Defined.
